(** * Login / Base handoff of the wg-toolkit example server

    Shallow embedding of [examples/server.rs]: the [LoginApp] and [BaseApp]
    handlers, their client trackers and the pending-handoff registry.

    Modelling choices:
    - a [SocketAddr] is an integer ([Addr]); a Blowfish key is its key bytes;
    - the element library (framing, encryption, decoding) is external: an
      element is its id plus an already decoded body, and reading a body of
      the wrong shape fails, which the code turns into a panic by [unwrap];
    - every [App::send] appends the bundle to the app's outbox;
      [App::set_channel] records the cipher key of the address;
    - [Instant::elapsed] and [OsRng] are streams in an environment [Env],
      read at positions kept in the state, so each call reads a fresh value;
    - a Rust panic ([unwrap], [expect]) is the outcome [Panic]; the unbounded
      retry loop of [alloc_pending_client] runs on fuel and reports
      [Diverge] when the fuel is spent. *)

From Stdlib Require Import ZArith Lia List.
From stdpp Require Import base gmap strings list.
Import ListNotations.

Open Scope Z_scope.

(** ** Data model *)

Definition Addr := Z.
Definition BlowfishKey := list Z.

Definition u32_max : Z := 2 ^ 32 - 1.

(** Decoded element bodies, one per element type read by the handlers. *)
Inductive Body :=
| BPing (num : Z)
| BLoginRequest (username password : string) (blowfish_key : list Z)
| BChallengeResponse (duration : Z) (solution : list Z)
| BClientAuth (login_key attempts_count unk : Z)
| BClientSessionKey (session_key : Z)
| BOpaque.

(** The element reader: the optional request id of the element and its body. *)
Record Reader := mkReader { request_id : option Z; body : Body }.

Inductive BundleElement :=
| Simple (id : Z) (reader : Reader)
| Reply (id : Z) (reader : Reader).

(** Element ids of the element library (only their distinctness matters). *)
Definition Ping_ID : Z := 2.
Definition LoginRequest_ID : Z := 0.
Definition ChallengeResponse_ID : Z := 3.
Definition ClientAuth_ID : Z := 0.
Definition ClientSessionKey_ID : Z := 1.

(** [reader.read_simple::<T>()] / [reader.read::<T>(..)]: [None] on decode failure. *)
Definition read_ping (r : Reader) : option Z :=
  match body r with BPing n => Some n | _ => None end.
Definition read_login_request (r : Reader) : option (string * string * list Z) :=
  match body r with BLoginRequest u p k => Some (u, p, k) | _ => None end.
Definition read_challenge_response (r : Reader) : option (Z * list Z) :=
  match body r with BChallengeResponse d s => Some (d, s) | _ => None end.
Definition read_client_auth (r : Reader) : option (Z * Z * Z) :=
  match body r with BClientAuth k a u => Some (k, a, u) | _ => None end.
Definition read_client_session_key (r : Reader) : option Z :=
  match body r with BClientSessionKey k => Some k | _ => None end.

(** [Blowfish::new_from_slice]: keys of 4 to 56 bytes. *)
Definition blowfish_new_from_slice (k : list Z) : option BlowfishKey :=
  if decide (4 <= Z.of_nat (length k) <= 56) then Some k else None.

Inductive LoginChallenge := CuckooCycle (prefix : Z) (max_nonce : Z).

(** Outgoing elements. *)
Inductive OutMsg :=
| OPong (num : Z) (request_id : Z)
| OLoginChallenge (challenge : LoginChallenge) (enc : BlowfishKey) (request_id : Z)
| OLoginSuccess (addr : Addr) (login_key : Z) (server_message : string)
    (enc : BlowfishKey) (request_id : Z)
| OServerSessionKey (session_key : Z) (request_id : Z)
| OUpdateFrequencyNotification (frequency : Z) (game_time : Z)
| OTickSync (tick : Z)
| OCreateBasePlayer (entity_id entity_type : Z) (entity_data : list Z).

Definition Bundle := list OutMsg.

Record LoginClient := mkLoginClient {
  lc_addr : Addr;
  blowfish : option BlowfishKey;
  challenge_complete : bool }.

Definition LoginClient_new (addr : Addr) : LoginClient :=
  mkLoginClient addr None false.

Record PendingBaseClient := mkPendingBaseClient {
  pb_addr : Addr;
  pb_blowfish : BlowfishKey }.

Record BaseClient := mkBaseClient {
  session_key : Z;
  sent_freq : bool }.

Definition BaseClient_new (session_key : Z) : BaseClient :=
  mkBaseClient session_key false.

Record LoginApp := mkLoginApp {
  login_addr : Addr;
  clients : gmap Addr LoginClient;
  login_sent : list (Addr * Bundle) }.

Record BaseApp := mkBaseApp {
  base_addr : Addr;
  pending_clients : gmap Z PendingBaseClient;
  logged_clients : gmap Addr BaseClient;
  logged_counter : Z;
  channels : gmap Addr BlowfishKey;
  base_sent : list (Addr * Bundle) }.

(** Both apps live in one process, with the positions reached in the clock
    and random streams. *)
Record Sys := mkSys {
  login_app : LoginApp;
  base_app : BaseApp;
  clock_pos : nat;
  rng_pos : nat }.

(** The outside world: [clock n] is [start_time.elapsed().as_secs()] at the
    [n]-th reading, [rng n] the [n]-th 64-bit word drawn from [OsRng]. *)
Record Env := mkEnv {
  clock : nat -> Z;
  rng : nat -> Z;
  alloc_fuel : nat }.

(** ** A state and panic monad *)

Inductive Outcome (A : Type) :=
| Done (a : A)
| Panic (msg : string)
| Diverge.
Arguments Done {A} a.
Arguments Panic {A} msg.
Arguments Diverge {A}.

Definition M (A : Type) := Sys -> Outcome (A * Sys).

Definition ret {A} (a : A) : M A := fun s => Done (a, s).

Definition bind {A B} (m : M A) (k : A -> M B) : M B := fun s =>
  match m s with
  | Done (a, s') => k a s'
  | Panic msg => Panic msg
  | Diverge => Diverge
  end.

Declare Scope monad_scope.
Notation "x <- m ;; k" := (bind m (fun x => k))
  (at level 100, m at next level, k at level 200, right associativity)
  : monad_scope.
Notation "m ;; k" := (bind m (fun _ => k))
  (at level 100, k at level 200, right associativity) : monad_scope.
Open Scope monad_scope.

Definition panic {A} (msg : string) : M A := fun _ => Panic msg.
Definition diverge {A} : M A := fun _ => Diverge.

(** [Option::unwrap] and [Option::expect]. *)
Definition expect {A} (o : option A) (msg : string) : M A :=
  match o with Some a => ret a | None => panic msg end.
Definition unwrap_none_msg : string := "called Option::unwrap() on a None value".
Definition unwrap {A} (o : option A) : M A := expect o unwrap_none_msg.

Definition gets {A} (f : Sys -> A) : M A := fun s => Done (f s, s).

Definition modify_login (f : LoginApp -> LoginApp) : M unit := fun s =>
  Done (tt, mkSys (f (login_app s)) (base_app s) (clock_pos s) (rng_pos s)).
Definition modify_base (f : BaseApp -> BaseApp) : M unit := fun s =>
  Done (tt, mkSys (login_app s) (f (base_app s)) (clock_pos s) (rng_pos s)).

(** Field updates. *)
Definition with_clients (f : gmap Addr LoginClient -> gmap Addr LoginClient)
    (a : LoginApp) : LoginApp :=
  mkLoginApp (login_addr a) (f (clients a)) (login_sent a).
Definition with_login_sent (f : list (Addr * Bundle) -> list (Addr * Bundle))
    (a : LoginApp) : LoginApp :=
  mkLoginApp (login_addr a) (clients a) (f (login_sent a)).
Definition with_pending (f : gmap Z PendingBaseClient -> gmap Z PendingBaseClient)
    (b : BaseApp) : BaseApp :=
  mkBaseApp (base_addr b) (f (pending_clients b)) (logged_clients b)
    (logged_counter b) (channels b) (base_sent b).
Definition with_logged (f : gmap Addr BaseClient -> gmap Addr BaseClient)
    (b : BaseApp) : BaseApp :=
  mkBaseApp (base_addr b) (pending_clients b) (f (logged_clients b))
    (logged_counter b) (channels b) (base_sent b).
Definition with_counter (c : Z) (b : BaseApp) : BaseApp :=
  mkBaseApp (base_addr b) (pending_clients b) (logged_clients b)
    c (channels b) (base_sent b).
Definition with_channels (f : gmap Addr BlowfishKey -> gmap Addr BlowfishKey)
    (b : BaseApp) : BaseApp :=
  mkBaseApp (base_addr b) (pending_clients b) (logged_clients b)
    (logged_counter b) (f (channels b)) (base_sent b).
Definition with_base_sent (f : list (Addr * Bundle) -> list (Addr * Bundle))
    (b : BaseApp) : BaseApp :=
  mkBaseApp (base_addr b) (pending_clients b) (logged_clients b)
    (logged_counter b) (channels b) (f (base_sent b)).

(** [self.app.send(&mut bundle, addr).unwrap()] on each app. *)
Definition login_send (addr : Addr) (bundle : Bundle) : M unit :=
  modify_login (with_login_sent (fun l => l ++ [(addr, bundle)])).
Definition base_send (addr : Addr) (bundle : Bundle) : M unit :=
  modify_base (with_base_sent (fun l => l ++ [(addr, bundle)])).

(** [u32::checked_add]. *)
Definition checked_add_u32 (a b : Z) : option Z :=
  if decide (a + b <= u32_max) then Some (a + b) else None.

Section Handlers.
Context (env : Env).

(** [OsRng.next_u64()] and [OsRng.next_u32()]. *)
Definition next_u64 : M Z := fun s =>
  Done (rng env (rng_pos s) mod 2 ^ 64,
        mkSys (login_app s) (base_app s) (clock_pos s) (S (rng_pos s))).
Definition next_u32 : M Z := fun s =>
  Done (rng env (rng_pos s) mod 2 ^ 32,
        mkSys (login_app s) (base_app s) (clock_pos s) (S (rng_pos s))).

(** [BaseApp::current_time]: [self.start_time.elapsed().as_secs() as u32]. *)
Definition current_time : M Z := fun s =>
  Done (clock env (clock_pos s) mod 2 ^ 32,
        mkSys (login_app s) (base_app s) (S (clock_pos s)) (rng_pos s)).

(** [BaseApp::current_time_tick]: [self.current_time() as u8]. *)
Definition current_time_tick : M Z :=
  t <- current_time ;; ret (t mod 256).

(** [BaseApp::timestamp_bundle]: append a [TickSync] to the bundle. *)
Definition timestamp_bundle (bundle : Bundle) : M Bundle :=
  tick <- current_time_tick ;; ret (bundle ++ [OTickSync tick]).

(** [BaseApp::alloc_pending_client]: draw keys until a vacant one is found. *)
Fixpoint alloc_loop (fuel : nat) (addr : Addr) (bf : BlowfishKey) : M Z :=
  match fuel with
  | O => diverge
  | S fuel' =>
      key <- next_u32 ;;
      pend <- gets (fun s => pending_clients (base_app s)) ;;
      match pend !! key with
      | None =>
          modify_base (with_pending (insert key (mkPendingBaseClient addr bf))) ;;
          ret key
      | Some _ => alloc_loop fuel' addr bf
      end
  end.

Definition alloc_pending_client (addr : Addr) (bf : BlowfishKey) : M Z :=
  alloc_loop (alloc_fuel env) addr bf.

(** [self.clients.entry(addr)] with [LoginClient::new(addr)] for a vacant entry. *)
Definition login_client_entry (addr : Addr) : M LoginClient :=
  cs <- gets (fun s => clients (login_app s)) ;;
  match cs !! addr with
  | Some c => ret c
  | None =>
      let c := LoginClient_new addr in
      modify_login (with_clients (insert addr c)) ;;
      ret c
  end.

Definition set_login_client (addr : Addr) (c : LoginClient) : M unit :=
  modify_login (with_clients (insert addr c)).

(** [((1 << 20) as f32 * 0.9) as _]: 1048576 * 0.9f32 = 943718.375, truncated. *)
Definition cuckoo_max_nonce : Z := 943718.

(** [LoginApp::handle_element]. *)
Definition login_handle_element (addr : Addr) (element : BundleElement) : M bool :=
  client <- login_client_entry addr ;;
  match element with
  | Simple id reader =>
      if decide (id = Ping_ID) then
        num <- unwrap (read_ping reader) ;;
        rid <- unwrap (request_id reader) ;;
        login_send (lc_addr client) [OPong num rid] ;;
        ret true
      else if decide (id = LoginRequest_ID) then
        req <- unwrap (read_login_request reader) ;;
        let '(_, _, blowfish_key) := req in
        bf <- unwrap (blowfish_new_from_slice blowfish_key) ;;
        set_login_client addr
          (mkLoginClient (lc_addr client) (Some bf) (challenge_complete client)) ;;
        (if negb (challenge_complete client) then
           cuckoo_prefix <- next_u64 ;;
           rid <- unwrap (request_id reader) ;;
           login_send (lc_addr client)
             [OLoginChallenge (CuckooCycle cuckoo_prefix cuckoo_max_nonce) bf rid]
         else
           baddr <- gets (fun s => base_addr (base_app s)) ;;
           login_key <- alloc_pending_client (lc_addr client) bf ;;
           rid <- unwrap (request_id reader) ;;
           login_send (lc_addr client)
             [OLoginSuccess baddr login_key EmptyString bf rid]) ;;
        ret true
      else if decide (id = ChallengeResponse_ID) then
        _ <- unwrap (read_challenge_response reader) ;;
        set_login_client addr
          (mkLoginClient (lc_addr client) (blowfish client) true) ;;
        ret true
      else ret false
  | Reply _ _ => ret false
  end.

(** [BaseApp::UPDATE_FREQ]. *)
Definition UPDATE_FREQ : Z := 10.

(** [b"\x00\x09518858105\x00"]. *)
Definition base_player_data : list Z := [0; 9; 53; 49; 56; 56; 53; 56; 49; 48; 53; 0].

(** [BaseApp::handle_element]. *)
Definition base_handle_element (addr : Addr) (element : BundleElement) : M bool :=
  logged_client <- gets (fun s => logged_clients (base_app s) !! addr) ;;
  match element with
  | Simple id reader =>
      if decide (id = ClientAuth_ID) then
        client_auth <- unwrap (read_client_auth reader) ;;
        let '(login_key, _, _) := client_auth in
        pend <- gets (fun s => pending_clients (base_app s) !! login_key) ;;
        modify_base (with_pending (delete login_key)) ;;
        match pend with
        | Some pending_login =>
            if decide (pb_addr pending_login = addr) then
              modify_base (with_channels (insert addr (pb_blowfish pending_login))) ;;
              counter <- gets (fun s => logged_counter (base_app s)) ;;
              counter' <- expect (checked_add_u32 counter 1) "too much logged clients" ;;
              modify_base (with_counter counter') ;;
              let logged_key := counter' in
              modify_base (with_logged (insert addr (BaseClient_new logged_key))) ;;
              rid <- unwrap (request_id reader) ;;
              base_send addr [OServerSessionKey logged_key rid] ;;
              ret true
            else ret true
        | None => ret true
        end
      else if decide (id = ClientSessionKey_ID) then
        session_key' <- unwrap (read_client_session_key reader) ;;
        match logged_client with
        | Some client =>
            if decide (session_key' = session_key client) then
              if negb (sent_freq client) then
                game_time <- current_time ;;
                let bundle := [OUpdateFrequencyNotification UPDATE_FREQ game_time] in
                bundle <- timestamp_bundle bundle ;;
                base_send addr bundle ;;
                bundle <- timestamp_bundle [] ;;
                let bundle := bundle ++ [OCreateBasePlayer 37289213 11 base_player_data] in
                base_send addr bundle ;;
                ret true
              else ret true
            else ret true
        | None => ret true
        end
      else ret false
  | Reply _ _ => ret false
  end.

(** The [while let Some(element) = reader.next_element()] loops of
    [LoginApp::handle] and [BaseApp::handle]: stop at the first [false]. *)
Fixpoint handle_elements (h : BundleElement -> M bool)
    (elements : list BundleElement) : M unit :=
  match elements with
  | [] => ret tt
  | e :: rest =>
      continue <- h e ;;
      if continue then handle_elements h rest else ret tt
  end.

Inductive EventKind :=
| EvBundle (elements : list BundleElement)
| EvPacketError.

Record Event := mkEvent { ev_addr : Addr; ev_kind : EventKind }.

(** [LoginApp::handle]. *)
Definition login_handle (event : Event) : M unit :=
  match ev_kind event with
  | EvBundle elements => handle_elements (login_handle_element (ev_addr event)) elements
  | EvPacketError => ret tt
  end.

(** [BaseApp::handle]. *)
Definition base_handle (event : Event) : M unit :=
  match ev_kind event with
  | EvBundle elements => handle_elements (base_handle_element (ev_addr event)) elements
  | EvPacketError => ret tt
  end.

(** The main loop polls both apps in turn; any interleaving of their events
    can be produced by the polls. *)
Inductive SysEvent :=
| ToLogin (event : Event)
| ToBase (event : Event).

Definition sys_handle (e : SysEvent) : M unit :=
  match e with
  | ToLogin event => login_handle event
  | ToBase event => base_handle event
  end.

Fixpoint run (events : list SysEvent) : M unit :=
  match events with
  | [] => ret tt
  | e :: rest => sys_handle e ;; run rest
  end.

End Handlers.

(** The state built by [main] before the loop. *)
Definition init_sys (login_bind base_bind : Addr) : Sys :=
  mkSys (mkLoginApp login_bind ∅ []) (mkBaseApp base_bind ∅ ∅ 0 ∅ []) 0 0.

(** ** Concrete inputs *)

(** A clock advancing one second per reading from 300 s, a counting random
    stream, and a generous allocation budget. *)
Definition env0 : Env := mkEnv (fun n => 300 + Z.of_nat n) (fun n => 1000 + 7 * Z.of_nat n) 10.

Definition key4 : BlowfishKey := [1; 2; 3; 4].

Definition el_auth (login_key : Z) (rid : option Z) : BundleElement :=
  Simple ClientAuth_ID (mkReader rid (BClientAuth login_key 0 0)).
Definition el_session_key (k : Z) : BundleElement :=
  Simple ClientSessionKey_ID (mkReader None (BClientSessionKey k)).
Definition el_ping (num : Z) (rid : option Z) : BundleElement :=
  Simple Ping_ID (mkReader rid (BPing num)).

(** The Base app with client 7 established under session key 1. *)
Definition s_established : Sys :=
  mkSys (mkLoginApp 1 ∅ []) (mkBaseApp 2 ∅ {[7 := BaseClient_new 1]} 1 ∅ []) 0 0.

(** The Base app with credential 5 pending for address 7. *)
Definition s_pending : Sys :=
  mkSys (mkLoginApp 1 ∅ []) (mkBaseApp 2 {[5 := mkPendingBaseClient 7 key4]} ∅ 0 ∅ []) 0 0.

(** Scenario A of the spec: address 7 logs in (challenge, answer, success
    with credential 1007), then redeems it at the Base app. *)
Definition el_login_request : BundleElement :=
  Simple LoginRequest_ID (mkReader (Some 5) (BLoginRequest "user" "pass" key4)).
Definition el_challenge_response (d : Z) (sol : list Z) : BundleElement :=
  Simple ChallengeResponse_ID (mkReader None (BChallengeResponse d sol)).

Definition scenario_login : list SysEvent :=
  [ToLogin (mkEvent 7 (EvBundle [el_login_request]));
   ToLogin (mkEvent 7 (EvBundle [el_challenge_response 1 []; el_login_request]))].
Definition scenario_a : list SysEvent :=
  scenario_login ++ [ToBase (mkEvent 7 (EvBundle [el_auth 1007 (Some 9)]))].
(** Address 7 then logs in again and obtains credential 1014. *)
Definition scenario_relogin : list SysEvent :=
  scenario_a ++ [ToLogin (mkEvent 7 (EvBundle [el_login_request]))].

Definition final_state (evs : list SysEvent) : Sys :=
  match run env0 evs (init_sys 1 2) with
  | Done (_, s) => s
  | _ => init_sys 1 2
  end.

(** Number of [CreateBasePlayer] elements in an outbox. *)
Definition count_create_player (sent : list (Addr * Bundle)) : nat :=
  List.length (List.filter
    (fun m => match m with OCreateBasePlayer _ _ _ => true | _ => false end)
    (concat (map snd sent))).

(** Element kinds each app recognises. *)
Definition base_known (e : BundleElement) : bool :=
  match e with
  | Simple id _ => bool_decide (id = ClientAuth_ID) || bool_decide (id = ClientSessionKey_ID)
  | Reply _ _ => false
  end.

Definition login_known (e : BundleElement) : bool :=
  match e with
  | Simple id _ =>
      bool_decide (id = Ping_ID) || bool_decide (id = LoginRequest_ID)
      || bool_decide (id = ChallengeResponse_ID)
  | Reply _ _ => false
  end.

(** The state after [self.clients.entry(addr)] of the Login app. *)
Definition with_login_client (addr : Addr) (s : Sys) : Sys :=
  match clients (login_app s) !! addr with
  | Some _ => s
  | None => mkSys (with_clients (insert addr (LoginClient_new addr)) (login_app s))
              (base_app s) (clock_pos s) (rng_pos s)
  end.

Ltac unfold_m :=
  unfold bind, ret, gets, modify_base, modify_login, unwrap, expect, panic,
    with_pending, with_logged, with_counter, with_channels, with_base_sent,
    with_clients, with_login_sent, base_send, login_send in *; simpl in *.


(** Session keys sent in [ServerSessionKey] replies, in order. *)
Definition bundle_session_keys (b : Bundle) : list Z :=
  flat_map (fun m => match m with OServerSessionKey k _ => [k] | _ => [] end) b.
Definition issued_keys (sent : list (Addr * Bundle)) : list Z :=
  flat_map (fun ab => bundle_session_keys (snd ab)) sent.

(** Login keys sent in [LoginSuccess] replies, in order. *)
Definition bundle_login_keys (b : Bundle) : list Z :=
  flat_map (fun m => match m with OLoginSuccess _ k _ _ _ => [k] | _ => [] end) b.
Definition issued_login_keys (sent : list (Addr * Bundle)) : list Z :=
  flat_map (fun ab => bundle_login_keys (snd ab)) sent.

Definition count_key (k : Z) (sent : list (Addr * Bundle)) : nat :=
  List.length (List.filter (Z.eqb k) (issued_login_keys sent)).

(** The keys [1, 2, ..., n]. *)
Definition key_range (n : Z) : list Z := map Z.of_nat (seq 1 (Z.to_nat n)).

(** The [challenge_complete] flag of the LoginClient of [addr], false when
    the address is untracked. *)
Definition challenge_flag (addr : Addr) (s : Sys) : bool :=
  match clients (login_app s) !! addr with
  | Some c => challenge_complete c
  | None => false
  end.

Definition is_challenge_response (e : BundleElement) : bool :=
  match e with
  | Simple id _ => bool_decide (id = ChallengeResponse_ID)
  | Reply _ _ => false
  end.

(** The elements of a batch that reach [LoginApp::handle_element]: up to and
    including the first unrecognised one. *)
Fixpoint login_handled (els : list BundleElement) : list BundleElement :=
  match els with
  | [] => []
  | e :: rest => if login_known e then e :: login_handled rest else [e]
  end.

(** The elements from [addr] handled by the Login app during [evs]. *)
Definition login_received (addr : Addr) (evs : list SysEvent) : list BundleElement :=
  flat_map (fun ev =>
    match ev with
    | ToLogin (mkEvent a (EvBundle els)) =>
        if bool_decide (a = addr) then login_handled els else []
    | _ => []
    end) evs.

(** What every run of the Base app keeps: the session keys replied so far
    are [1 .. logged_counter], the counter fits in a [u32], and every stored
    session key is between 1 and the counter. *)
Definition base_inv (s : Sys) : Prop :=
  issued_keys (base_sent (base_app s)) = key_range (logged_counter (base_app s))
  /\ 0 <= logged_counter (base_app s) <= u32_max
  /\ forall a c, logged_clients (base_app s) !! a = Some c ->
       1 <= session_key c <= logged_counter (base_app s).

(** While no new [LoginSuccess] carries [k] beyond the [n0] already sent,
    the registry has no entry for [k]. *)
Definition credential_dead (k : Z) (n0 : nat) (s : Sys) : Prop :=
  (n0 <= count_key k (login_sent (login_app s)))%nat
  /\ (pending_clients (base_app s) !! k = None
      \/ (n0 < count_key k (login_sent (login_app s)))%nat).

(** Every LoginClient is stored under its own address. *)
Definition login_clients_keyed (s : Sys) : Prop :=
  forall a c, clients (login_app s) !! a = Some c -> lc_addr c = a.

(** Session keys of two distinct tracked BaseClients differ. *)
Definition logged_keys_distinct (s : Sys) : Prop :=
  forall a1 a2 c1 c2, a1 <> a2 ->
    logged_clients (base_app s) !! a1 = Some c1 ->
    logged_clients (base_app s) !! a2 = Some c2 ->
    session_key c1 <> session_key c2.

(** The state after one step, for the examples below. *)
Definition login_after (env : Env) (addr : Addr) (e : BundleElement) (s : Sys) : Sys :=
  match login_handle_element env addr e s with Done (_, s') => s' | _ => s end.
Definition base_after (env : Env) (addr : Addr) (e : BundleElement) (s : Sys) : Sys :=
  match base_handle_element env addr e s with Done (_, s') => s' | _ => s end.

(** A random stream whose first draw hits the pending credential 5. *)
Definition env_collide : Env := mkEnv (clock env0) (fun n => 5 + Z.of_nat n) 10.
Definition alloc_demo_state : Sys :=
  match alloc_pending_client env_collide 8 key4 s_pending with
  | Done (_, s') => s'
  | _ => s_pending
  end.

Definition el_login_request_of (rid : Z) (key : list Z) : BundleElement :=
  Simple LoginRequest_ID (mkReader (Some rid) (BLoginRequest "user" "pass" key)).

(** Two clients log in; the second one (address 8) gets credential 1021. *)
Definition scenario_two : list SysEvent :=
  scenario_a ++
  [ToLogin (mkEvent 8 (EvBundle [el_login_request]));
   ToLogin (mkEvent 8 (EvBundle [el_challenge_response 1 []; el_login_request]));
   ToBase (mkEvent 8 (EvBundle [el_auth 1021 (Some 4)]))].

(** After the login of address 7: a Ping to the Login app, then the redemption. *)
Definition events_after_login : list SysEvent :=
  [ToLogin (mkEvent 7 (EvBundle [el_ping 1 (Some 2)]));
   ToBase (mkEvent 7 (EvBundle [el_auth 1007 (Some 9)]))].
Definition scenario_persist : list SysEvent := scenario_login ++ events_after_login.

(** Whether a computation returned. *)
Definition is_done {A} (o : Outcome A) : bool :=
  match o with Done _ => true | _ => false end.

(** ** Step lemmas of [BaseApp::handle_element] *)

Lemma base_auth_mismatch env s addr k a u rid p :
  pending_clients (base_app s) !! k = Some p ->
  pb_addr p <> addr ->
  base_handle_element env addr (Simple ClientAuth_ID (mkReader rid (BClientAuth k a u))) s
  = Done (true, mkSys (login_app s) (with_pending (delete k) (base_app s))
                      (clock_pos s) (rng_pos s)).
Proof.
  intros Hk Hne. destruct s as [la [ba pend logged cnt chans sent] cp rp]. simpl in *.
  unfold base_handle_element. unfold_m. rewrite Hk.
  destruct (decide (ClientAuth_ID = ClientAuth_ID)) as [_|]; [|congruence].
  destruct (decide (pb_addr p = addr)); [congruence|]. reflexivity.
Qed.

Lemma base_auth_absent env s addr k a u rid :
  pending_clients (base_app s) !! k = None ->
  base_handle_element env addr (Simple ClientAuth_ID (mkReader rid (BClientAuth k a u))) s
  = Done (true, s).
Proof.
  intros Hk. destruct s as [la [ba pend logged cnt chans sent] cp rp]. simpl in *.
  unfold base_handle_element. unfold_m. rewrite Hk.
  destruct (decide (ClientAuth_ID = ClientAuth_ID)) as [_|]; [|congruence].
  rewrite delete_id by exact Hk. reflexivity.
Qed.

Lemma base_session_key_mismatch env s addr sk c :
  logged_clients (base_app s) !! addr = Some c ->
  sk <> session_key c ->
  base_handle_element env addr (el_session_key sk) s = Done (true, s).
Proof.
  intros Hc Hne. destruct s as [la [ba pend logged cnt chans sent] cp rp]. simpl in *.
  unfold base_handle_element, el_session_key. unfold_m. rewrite Hc.
  destruct (decide (ClientSessionKey_ID = ClientAuth_ID)); [discriminate|].
  destruct (decide (ClientSessionKey_ID = ClientSessionKey_ID)); [|congruence].
  destruct (decide (sk = session_key c)); [congruence|]. reflexivity.
Qed.

Lemma base_unknown env s addr e :
  base_known e = false -> base_handle_element env addr e s = Done (false, s).
Proof.
  intros Hu. destruct e as [id r|id r]; [|reflexivity].
  simpl in Hu. apply orb_false_iff in Hu as [H1 H2].
  apply bool_decide_eq_false in H1, H2.
  unfold base_handle_element. unfold_m.
  destruct (decide (id = ClientAuth_ID)); [congruence|].
  destruct (decide (id = ClientSessionKey_ID)); [congruence|]. reflexivity.
Qed.

Lemma base_auth_removes env s addr k a u rid b s' :
  base_handle_element env addr (Simple ClientAuth_ID (mkReader rid (BClientAuth k a u))) s
  = Done (b, s') ->
  pending_clients (base_app s') !! k = None.
Proof.
  destruct s as [la [ba pend logged cnt chans sent] cp rp].
  unfold base_handle_element. unfold_m.
  destruct (decide (ClientAuth_ID = ClientAuth_ID)) as [_|]; [|congruence].
  destruct (pend !! k) as [p|].
  - destruct (decide (pb_addr p = addr)).
    + unfold checked_add_u32.
      case_decide as Hc; simpl; [|intros Hr; discriminate Hr].
      destruct rid; simpl; [|intros Hr; discriminate Hr].
      intros H; inversion H; subst; simpl. apply lookup_delete_eq.
    + intros H; inversion H; subst; simpl. apply lookup_delete_eq.
  - intros H; inversion H; subst; simpl. apply lookup_delete_eq.
Qed.

(** ** Step lemmas of [LoginApp::handle_element] *)

Lemma login_unknown env s addr e :
  login_known e = false ->
  login_handle_element env addr e s = Done (false, with_login_client addr s).
Proof.
  intros Hu. destruct s as [[la cls lsent] ba cp rp].
  unfold login_handle_element, login_client_entry, with_login_client. unfold_m.
  destruct e as [id r|id r].
  - simpl in Hu. apply orb_false_iff in Hu as [Hu H3].
    apply orb_false_iff in Hu as [H1 H2].
    apply bool_decide_eq_false in H1, H2, H3.
    destruct (cls !! addr); simpl;
    (destruct (decide (id = Ping_ID)); [congruence|]);
    (destruct (decide (id = LoginRequest_ID)); [congruence|]);
    (destruct (decide (id = ChallengeResponse_ID)); [congruence|]); reflexivity.
  - destruct (cls !! addr); reflexivity.
Qed.

Lemma alloc_loop_no_panic env fuel addr bf s :
  alloc_loop env fuel addr bf s = Diverge \/
  exists k s', alloc_loop env fuel addr bf s = Done (k, s').
Proof.
  revert s. induction fuel as [|fuel IH]; intros s; simpl.
  - left. reflexivity.
  - unfold bind, gets, next_u32, ret, modify_base. simpl.
    destruct (pending_clients (base_app s) !! (rng env (rng_pos s) mod 2 ^ 32)).
    + apply IH.
    + right. eauto.
Qed.

(** Whether the allocation loop returns depends only on the registry and the
    position in the random stream. *)
Lemma alloc_loop_done_indep env fuel a1 b1 a2 b2 s1 s2 :
  pending_clients (base_app s1) = pending_clients (base_app s2) ->
  rng_pos s1 = rng_pos s2 ->
  is_done (alloc_loop env fuel a1 b1 s1) = is_done (alloc_loop env fuel a2 b2 s2).
Proof.
  revert s1 s2. induction fuel as [|fuel IH]; intros s1 s2 Hp Hr; simpl; [reflexivity|].
  unfold bind, gets, next_u32, ret, modify_base. simpl. rewrite Hp, Hr.
  destruct (pending_clients (base_app s2) !! (rng env (rng_pos s2) mod 2 ^ 32)).
  - apply IH; simpl; congruence.
  - reflexivity.
Qed.

Lemma base_auth_match env s addr k a u r p :
  pending_clients (base_app s) !! k = Some p ->
  pb_addr p = addr ->
  logged_counter (base_app s) < u32_max ->
  base_handle_element env addr (Simple ClientAuth_ID (mkReader (Some r) (BClientAuth k a u))) s
  = Done (true,
      mkSys (login_app s)
        (mkBaseApp (base_addr (base_app s)) (delete k (pending_clients (base_app s)))
           (<[addr := BaseClient_new (logged_counter (base_app s) + 1)]>
              (logged_clients (base_app s)))
           (logged_counter (base_app s) + 1)
           (<[addr := pb_blowfish p]> (channels (base_app s)))
           (base_sent (base_app s) ++
              [(addr, [OServerSessionKey (logged_counter (base_app s) + 1) r])]))
        (clock_pos s) (rng_pos s)).
Proof.
  intros Hk Ha Hc. destruct s as [la [ba pend logged cnt chans sent] cp rp]. simpl in *.
  unfold base_handle_element. unfold_m. rewrite Hk.
  destruct (decide (ClientAuth_ID = ClientAuth_ID)) as [_|]; [|congruence].
  destruct (decide (pb_addr p = addr)); [|congruence].
  unfold checked_add_u32. case_decide as Hd; simpl in Hd; [|lia]. reflexivity.
Qed.

Lemma base_auth_overflow env s addr k a u rid p :
  pending_clients (base_app s) !! k = Some p ->
  pb_addr p = addr ->
  u32_max <= logged_counter (base_app s) ->
  base_handle_element env addr (Simple ClientAuth_ID (mkReader rid (BClientAuth k a u))) s
  = Panic "too much logged clients".
Proof.
  intros Hk Ha Hc. destruct s as [la [ba pend logged cnt chans sent] cp rp]. simpl in *.
  unfold base_handle_element. unfold_m. rewrite Hk.
  destruct (decide (ClientAuth_ID = ClientAuth_ID)) as [_|]; [|congruence].
  destruct (decide (pb_addr p = addr)); [|congruence].
  unfold checked_add_u32. case_decide as Hd; simpl in Hd; [lia|]. reflexivity.
Qed.

Lemma base_auth_no_token env s addr k a u p :
  pending_clients (base_app s) !! k = Some p ->
  pb_addr p = addr ->
  logged_counter (base_app s) < u32_max ->
  base_handle_element env addr (Simple ClientAuth_ID (mkReader None (BClientAuth k a u))) s
  = Panic unwrap_none_msg.
Proof.
  intros Hk Ha Hc. destruct s as [la [ba pend logged cnt chans sent] cp rp]. simpl in *.
  unfold base_handle_element. unfold_m. rewrite Hk.
  destruct (decide (ClientAuth_ID = ClientAuth_ID)) as [_|]; [|congruence].
  destruct (decide (pb_addr p = addr)); [|congruence].
  unfold checked_add_u32. case_decide as Hd; simpl in Hd; [|lia]. reflexivity.
Qed.

Lemma handle_elements_cons_true h e rest s s' :
  h e s = Done (true, s') ->
  handle_elements h (e :: rest) s = handle_elements h rest s'.
Proof. intros H. simpl. unfold bind. rewrite H. reflexivity. Qed.

Lemma handle_elements_cons_false h e rest s s' :
  h e s = Done (false, s') ->
  handle_elements h (e :: rest) s = Done (tt, s').
Proof. intros H. simpl. unfold bind. rewrite H. reflexivity. Qed.

(** ** Shape of one step of each app *)

Lemma issued_keys_app l1 l2 :
  issued_keys (l1 ++ l2) = issued_keys l1 ++ issued_keys l2.
Proof. unfold issued_keys. apply flat_map_app. Qed.

Lemma issued_login_keys_app l1 l2 :
  issued_login_keys (l1 ++ l2) = issued_login_keys l1 ++ issued_login_keys l2.
Proof. unfold issued_login_keys. apply flat_map_app. Qed.

Lemma base_step_shape env addr e s b s' :
  base_handle_element env addr e s = Done (b, s') ->
  login_app s' = login_app s
  /\ (pending_clients (base_app s') = pending_clients (base_app s)
      \/ exists k, pending_clients (base_app s') = delete k (pending_clients (base_app s)))
  /\ ((logged_clients (base_app s') = logged_clients (base_app s)
       /\ logged_counter (base_app s') = logged_counter (base_app s)
       /\ issued_keys (base_sent (base_app s')) = issued_keys (base_sent (base_app s)))
      \/ (logged_counter (base_app s) < u32_max
          /\ logged_counter (base_app s') = logged_counter (base_app s) + 1
          /\ logged_clients (base_app s')
             = <[addr := BaseClient_new (logged_counter (base_app s) + 1)]>
                 (logged_clients (base_app s))
          /\ issued_keys (base_sent (base_app s'))
             = issued_keys (base_sent (base_app s)) ++ [logged_counter (base_app s) + 1])).
Proof.
  intros H.
  destruct e as [id [rid bdy]|id r];
    [|unfold base_handle_element in H; unfold_m; inversion H; subst;
      split; [reflexivity|]; split; [left; reflexivity|]; left; auto].
  destruct (decide (id = ClientAuth_ID)) as [->|Hid1].
  - destruct bdy as [| | |k a u| |];
      try (unfold base_handle_element in H; unfold_m; discriminate H).
    destruct (pending_clients (base_app s) !! k) as [p|] eqn:Hk.
    + destruct (decide (pb_addr p = addr)) as [Ha|Ha].
      * destruct (decide (logged_counter (base_app s) < u32_max)) as [Hc|Hc].
        -- destruct rid as [r|].
           ++ rewrite (base_auth_match env s addr k a u r p Hk Ha Hc) in H.
              inversion H; subst; simpl.
              split; [reflexivity|]. split; [right; eauto|]. right.
              split; [exact Hc|]. split; [reflexivity|]. split; [reflexivity|].
              rewrite issued_keys_app. reflexivity.
           ++ rewrite (base_auth_no_token env s addr k a u p Hk Ha Hc) in H. discriminate H.
        -- rewrite (base_auth_overflow env s addr k a u rid p Hk Ha) in H by lia.
           discriminate H.
      * rewrite (base_auth_mismatch env s addr k a u rid p Hk Ha) in H.
        inversion H; subst; simpl.
        split; [reflexivity|]. split; [right; eauto|]. left; auto.
    + rewrite (base_auth_absent env s addr k a u rid Hk) in H.
      inversion H; subst.
      split; [reflexivity|]. split; [left; reflexivity|]. left; auto.
  - destruct (decide (id = ClientSessionKey_ID)) as [->|Hid2].
    + destruct bdy as [| | | |sk|];
        try (unfold base_handle_element in H; unfold_m; discriminate H).
      destruct s as [la [ba pend logged cnt chans sent] cp rp].
      unfold base_handle_element in H. unfold_m.
      destruct (logged !! addr) as [c|].
      * destruct (decide (sk = session_key c)); [destruct (sent_freq c)|]; simpl in H;
          inversion H; subst; simpl;
          (split; [reflexivity|]); (split; [left; reflexivity|]); left;
          (split; [reflexivity|]); (split; [reflexivity|]); try reflexivity.
        rewrite !issued_keys_app. simpl. rewrite !app_nil_r. reflexivity.
      * inversion H; subst; simpl.
        split; [reflexivity|]. split; [left; reflexivity|]. left; auto.
    + rewrite base_unknown in H
        by (simpl; apply orb_false_iff; split; apply bool_decide_eq_false; assumption).
      inversion H; subst.
      split; [reflexivity|]. split; [left; reflexivity|]. left; auto.
Qed.

Lemma alloc_loop_shape env fuel addr bf s k s' :
  alloc_loop env fuel addr bf s = Done (k, s') ->
  login_app s' = login_app s
  /\ pending_clients (base_app s) !! k = None
  /\ base_app s' = with_pending (insert k (mkPendingBaseClient addr bf)) (base_app s).
Proof.
  revert s. induction fuel as [|fuel IH]; intros s H; simpl in H; [discriminate H|].
  unfold bind, gets, next_u32, ret, modify_base in H. simpl in H.
  destruct (pending_clients (base_app s) !! (rng env (rng_pos s) mod 2 ^ 32)) eqn:Hk.
  - apply IH in H as [H1 [H2 H3]]. simpl in *. auto.
  - inversion H; subst; simpl. auto.
Qed.

Lemma challenge_flag_insert addr addr' c s :
  challenge_flag addr'
    (mkSys (with_clients (insert addr c) (login_app s)) (base_app s) (clock_pos s) (rng_pos s))
  = if bool_decide (addr = addr') then challenge_complete c else challenge_flag addr' s.
Proof.
  unfold challenge_flag, with_clients. simpl. rewrite lookup_insert.
  case_bool_decide; case_decide; congruence.
Qed.

Lemma challenge_flag_entry addr addr' s :
  challenge_flag addr' (with_login_client addr s) = challenge_flag addr' s.
Proof.
  unfold with_login_client. destruct (clients (login_app s) !! addr) eqn:Hc; [reflexivity|].
  rewrite challenge_flag_insert. case_bool_decide; [|reflexivity].
  subst. unfold challenge_flag. rewrite Hc. reflexivity.
Qed.

Lemma login_client_entry_eq addr s :
  login_client_entry addr s
  = Done (default (LoginClient_new addr) (clients (login_app s) !! addr),
          with_login_client addr s).
Proof.
  unfold login_client_entry, with_login_client. unfold_m.
  destruct (clients (login_app s) !! addr); reflexivity.
Qed.

Lemma with_login_client_facts addr s :
  base_app (with_login_client addr s) = base_app s
  /\ login_sent (login_app (with_login_client addr s)) = login_sent (login_app s)
  /\ clients (login_app (with_login_client addr s)) !! addr
     = Some (default (LoginClient_new addr) (clients (login_app s) !! addr)).
Proof.
  unfold with_login_client. destruct (clients (login_app s) !! addr) eqn:Hc.
  - auto.
  - simpl. split; [reflexivity|]. split; [reflexivity|]. apply lookup_insert_eq.
Qed.

Lemma login_step_shape env addr e s b s' :
  login_handle_element env addr e s = Done (b, s') ->
  b = login_known e
  /\ (forall addr', challenge_flag addr' s'
       = challenge_flag addr' s || (bool_decide (addr = addr') && is_challenge_response e))
  /\ ((base_app s' = base_app s
       /\ issued_login_keys (login_sent (login_app s'))
          = issued_login_keys (login_sent (login_app s)))
      \/ exists key v,
         pending_clients (base_app s) !! key = None
         /\ base_app s' = with_pending (insert key v) (base_app s)
         /\ issued_login_keys (login_sent (login_app s'))
            = issued_login_keys (login_sent (login_app s)) ++ [key]).
Proof.
  intros H. unfold login_handle_element in H. unfold bind at 1 in H.
  rewrite login_client_entry_eq in H.
  destruct (with_login_client_facts addr s) as [Hb [Hs Hl]].
  assert (Hf : forall addr', challenge_flag addr' (with_login_client addr s)
                             = challenge_flag addr' s) by (intros; apply challenge_flag_entry).
  remember (with_login_client addr s) as t eqn:Ht. clear Ht.
  remember (default (LoginClient_new addr) (clients (login_app s) !! addr)) as c eqn:Hc.
  clear Hc.
  assert (Hfa : challenge_flag addr t = challenge_complete c)
    by (unfold challenge_flag; rewrite Hl; reflexivity).
  destruct e as [id [rid bdy]|id r].
  2: { unfold_m. inversion H; subst. split; [reflexivity|]. split.
       - intros addr'. rewrite Hf. simpl. rewrite andb_false_r, orb_false_r. reflexivity.
       - left. rewrite Hb, Hs. auto. }
  destruct (decide (id = Ping_ID)) as [->|H1].
  { destruct bdy as [num| | | | |]; unfold_m; try discriminate H.
    destruct rid; simpl in H; [|discriminate H]. inversion H; subst; simpl.
    split; [reflexivity|]. split.
    - intros addr'. rewrite <- Hf. unfold challenge_flag. simpl.
      rewrite andb_false_r, orb_false_r. reflexivity.
    - left. rewrite Hb, issued_login_keys_app, Hs. simpl. rewrite app_nil_r. auto. }
  destruct (decide (id = LoginRequest_ID)) as [->|H2].
  { destruct bdy as [|user pass key| | | |]; unfold_m; try discriminate H.
    destruct (blowfish_new_from_slice key) as [bf|]; simpl in H; [|discriminate H].
    unfold set_login_client in H. unfold_m.
    destruct (challenge_complete c) eqn:Hcc; simpl in H.
    - unfold alloc_pending_client in H.
      match type of H with
      | context [alloc_loop ?e ?f ?ad ?bb ?st] =>
          destruct (alloc_loop e f ad bb st) as [[k0 s2]| |] eqn:Hal; try discriminate H;
          apply alloc_loop_shape in Hal as [Hal1 [Hal2 Hal3]]
      end.
      simpl in H. destruct rid; simpl in H; [|discriminate H].
      inversion H; subst; simpl in *. split; [reflexivity|]. split.
      + intros addr'. rewrite <- Hf. unfold challenge_flag. rewrite Hal1. simpl.
        rewrite lookup_insert. rewrite andb_false_r, orb_false_r.
        case_decide; [subst; rewrite Hl; simpl; congruence | reflexivity].
      + right. exists k0, (mkPendingBaseClient (lc_addr c) bf).
        rewrite Hb in Hal2, Hal3. split; [exact Hal2|]. split; [exact Hal3|].
        rewrite Hal1. simpl. rewrite issued_login_keys_app, Hs. reflexivity.
    - destruct rid; simpl in H; [|discriminate H].
      inversion H; subst; simpl. split; [reflexivity|]. split.
      + intros addr'. rewrite <- Hf. unfold challenge_flag. simpl.
        rewrite lookup_insert. rewrite andb_false_r, orb_false_r.
        case_decide; [subst; rewrite Hl; simpl; congruence | reflexivity].
      + left. rewrite Hb, issued_login_keys_app, Hs. simpl. rewrite app_nil_r. auto. }
  destruct (decide (id = ChallengeResponse_ID)) as [->|H3].
  { destruct bdy as [| |d sol| | |]; unfold_m; try discriminate H.
    unfold set_login_client in H. unfold_m. inversion H; subst. split; [reflexivity|]. split.
    - intros addr'. rewrite <- Hf. unfold challenge_flag. simpl.
      rewrite lookup_insert. rewrite andb_true_r.
      case_decide; case_bool_decide; try congruence.
      + rewrite orb_true_r. reflexivity.
      + rewrite orb_false_r. reflexivity.
    - left. simpl. rewrite Hb, Hs. auto. }
  unfold_m. inversion H; subst. split.
  { simpl. repeat (case_bool_decide; [congruence|]). reflexivity. }
  split.
  - intros addr'. rewrite Hf. simpl.
    rewrite (bool_decide_eq_false_2 (id = ChallengeResponse_ID) H3).
    rewrite andb_false_r, orb_false_r. reflexivity.
  - left. rewrite Hb, Hs. auto.
Qed.

(** ** From steps to runs *)

Lemma handle_elements_inv (P : Sys -> Prop) h els s s' :
  (forall e s1 b s2, P s1 -> h e s1 = Done (b, s2) -> P s2) ->
  P s -> handle_elements h els s = Done (tt, s') -> P s'.
Proof.
  intros Hstep. revert s. induction els as [|e rest IH]; intros s Hs H; simpl in H.
  - unfold ret in H. inversion H; subst; assumption.
  - unfold bind in H. destruct (h e s) as [[[|] s1]| |] eqn:He; try discriminate H.
    + eapply IH; [eapply Hstep; eassumption | exact H].
    + unfold ret in H. inversion H; subst. eapply Hstep; eassumption.
Qed.

Lemma run_inv (P : Sys -> Prop) env evs s s' :
  (forall a e s1 b s2, P s1 -> login_handle_element env a e s1 = Done (b, s2) -> P s2) ->
  (forall a e s1 b s2, P s1 -> base_handle_element env a e s1 = Done (b, s2) -> P s2) ->
  P s -> run env evs s = Done (tt, s') -> P s'.
Proof.
  intros Hl Hb. revert s. induction evs as [|ev rest IH]; intros s Hs H; simpl in H.
  - unfold ret in H. inversion H; subst; assumption.
  - unfold bind in H. destruct (sys_handle env ev s) as [[[] s1]| |] eqn:He; try discriminate H.
    apply (IH s1); [|exact H].
    destruct ev as [[a [els|]]|[a [els|]]]; simpl in He; unfold login_handle, base_handle in He;
      simpl in He; try (unfold ret in He; inversion He; subst; assumption).
    + eapply handle_elements_inv; [|exact Hs|exact He]. intros; eapply Hl; eassumption.
    + eapply handle_elements_inv; [|exact Hs|exact He]. intros; eapply Hb; eassumption.
Qed.

Lemma key_range_succ c :
  0 <= c -> key_range (c + 1) = key_range c ++ [c + 1].
Proof.
  intros Hc. unfold key_range. rewrite Z2Nat.inj_add by lia.
  change (Z.to_nat 1) with 1%nat. rewrite Nat.add_1_r, seq_S, map_app. simpl.
  do 2 f_equal. lia.
Qed.

Lemma base_inv_init lb bb : base_inv (init_sys lb bb).
Proof.
  unfold base_inv. simpl. split; [reflexivity|]. split; [unfold u32_max; lia|].
  intros a c H. rewrite lookup_empty in H. discriminate H.
Qed.

Lemma base_inv_login_step env a e s b s' :
  base_inv s -> login_handle_element env a e s = Done (b, s') -> base_inv s'.
Proof.
  intros Hi H. apply login_step_shape in H as [_ [_ [[Hb _]|[key [v [_ [Hb _]]]]]]];
    unfold base_inv; rewrite Hb; exact Hi.
Qed.

Lemma base_inv_base_step env a e s b s' :
  base_inv s -> base_handle_element env a e s = Done (b, s') -> base_inv s'.
Proof.
  intros [Hk [Hc Hl]] H.
  apply base_step_shape in H as [_ [_ [[H1 [H2 H3]]|[H0 [H1 [H2 H3]]]]]];
    unfold base_inv.
  - rewrite H1, H2, H3. auto.
  - rewrite H1, H2, H3, Hk, key_range_succ by lia. split; [reflexivity|].
    split; [lia|]. intros a' c' Ha'. rewrite lookup_insert in Ha'.
    case_decide; [inversion Ha'; subst; simpl; lia|]. apply Hl in Ha'. lia.
Qed.

Lemma base_inv_run env evs lb bb s :
  run env evs (init_sys lb bb) = Done (tt, s) -> base_inv s.
Proof.
  intros H. eapply run_inv; [| | apply base_inv_init | exact H].
  - apply base_inv_login_step.
  - apply base_inv_base_step.
Qed.

Lemma login_elements_flag env a els s s' addr :
  handle_elements (login_handle_element env a) els s = Done (tt, s') ->
  challenge_flag addr s'
  = challenge_flag addr s
    || (bool_decide (a = addr) && existsb is_challenge_response (login_handled els)).
Proof.
  revert s. induction els as [|e rest IH]; intros s H; simpl in H.
  - unfold ret in H. inversion H; subst. simpl. rewrite andb_false_r, orb_false_r. reflexivity.
  - unfold bind in H. destruct (login_handle_element env a e s) as [[b s1]| |] eqn:He;
      try discriminate H.
    apply login_step_shape in He as [Hb [Hf _]]. subst b. simpl.
    destruct (login_known e).
    + apply IH in H. rewrite H, Hf. simpl.
      destruct (bool_decide (a = addr)); simpl; [|rewrite !orb_false_r; reflexivity].
      symmetry. apply orb_assoc.
    + unfold ret in H. inversion H; subst. rewrite Hf. simpl. rewrite orb_false_r. reflexivity.
Qed.

Lemma base_elements_flag env a els s s' addr :
  handle_elements (base_handle_element env a) els s = Done (tt, s') ->
  challenge_flag addr s' = challenge_flag addr s.
Proof.
  apply (handle_elements_inv (fun t => challenge_flag addr t = challenge_flag addr s));
    [|reflexivity].
  intros e s1 b s2 H1 H2. apply base_step_shape in H2 as [Hl _].
  unfold challenge_flag in *. rewrite Hl. exact H1.
Qed.

Lemma run_flag env evs s s' addr :
  run env evs s = Done (tt, s') ->
  challenge_flag addr s'
  = challenge_flag addr s || existsb is_challenge_response (login_received addr evs).
Proof.
  revert s. induction evs as [|ev rest IH]; intros s H; simpl in H.
  - unfold ret in H. inversion H; subst. simpl. rewrite orb_false_r. reflexivity.
  - unfold bind in H. destruct (sys_handle env ev s) as [[[] s1]| |] eqn:He; try discriminate H.
    apply IH in H. rewrite H. unfold login_received. simpl. fold (login_received addr rest).
    rewrite existsb_app, orb_assoc. f_equal.
    destruct ev as [[a [els|]]|[a [els|]]]; simpl in He; unfold login_handle, base_handle in He;
      simpl in He; try (unfold ret in He; inversion He; subst; rewrite orb_false_r; reflexivity).
    + apply login_elements_flag with (addr := addr) in He. rewrite He.
      destruct (bool_decide (a = addr)); simpl; rewrite ?orb_false_r; reflexivity.
    + apply base_elements_flag with (addr := addr) in He. rewrite He, orb_false_r. reflexivity.
Qed.

Lemma count_key_extend k l l' x :
  issued_login_keys l' = issued_login_keys l ++ x ->
  count_key k l' = (count_key k l + List.length (List.filter (Z.eqb k) x))%nat.
Proof. intros H. unfold count_key. rewrite H, List.filter_app, length_app. reflexivity. Qed.

Lemma credential_dead_login_step env k n0 a e s b s' :
  credential_dead k n0 s -> login_handle_element env a e s = Done (b, s') ->
  credential_dead k n0 s'.
Proof.
  intros [Hn Hd] H. apply login_step_shape in H as [_ [_ [[Hb Hi]|[key [v [Hkey [Hb Hi]]]]]]];
    unfold credential_dead.
  - rewrite Hb. unfold count_key. rewrite Hi. auto.
  - rewrite (count_key_extend k _ _ _ Hi), Hb. simpl.
    destruct (Z.eqb_spec k key) as [->|Hne]; simpl.
    + split; [lia|]. right; lia.
    + rewrite Nat.add_0_r. split; [lia|].
      destruct Hd as [Hd|Hd]; [left|right; lia].
      rewrite lookup_insert_ne by congruence. exact Hd.
Qed.

Lemma credential_dead_base_step env k n0 a e s b s' :
  credential_dead k n0 s -> base_handle_element env a e s = Done (b, s') ->
  credential_dead k n0 s'.
Proof.
  intros [Hn Hd] H. apply base_step_shape in H as [Hl [Hp _]].
  unfold credential_dead. rewrite Hl. split; [exact Hn|].
  destruct Hd as [Hd|Hd]; [left|right; exact Hd].
  destruct Hp as [-> | [k' ->]]; [exact Hd|]. apply lookup_delete_None. right. exact Hd.
Qed.

(** ** Claims *)

(** C2: a ClientAuth whose credential is pending for another address creates
    no BaseClient, activates no cipher, issues no session key and sends
    nothing. *)
Theorem auth_mismatch_no_session env s addr k a u rid p :
  pending_clients (base_app s) !! k = Some p ->
  pb_addr p <> addr ->
  exists s',
    base_handle_element env addr (Simple ClientAuth_ID (mkReader rid (BClientAuth k a u))) s
    = Done (true, s')
    /\ logged_clients (base_app s') = logged_clients (base_app s)
    /\ channels (base_app s') = channels (base_app s)
    /\ logged_counter (base_app s') = logged_counter (base_app s)
    /\ base_sent (base_app s') = base_sent (base_app s).
Proof.
  intros Hk Hne. eexists. split; [eapply base_auth_mismatch; eassumption|].
  destruct s as [la [ba pend logged cnt chans sent] cp rp]. simpl. auto.
Qed.

Lemma auth_mismatch_no_session_witness :
  pending_clients (base_app s_pending) !! 5 = Some (mkPendingBaseClient 7 key4)
  /\ pb_addr (mkPendingBaseClient 7 key4) <> 8
  /\ exists s',
    base_handle_element env0 8 (Simple ClientAuth_ID (mkReader None (BClientAuth 5 0 0)))
      s_pending = Done (true, s')
    /\ logged_clients (base_app s') = logged_clients (base_app s_pending)
    /\ channels (base_app s') = channels (base_app s_pending)
    /\ logged_counter (base_app s') = logged_counter (base_app s_pending)
    /\ base_sent (base_app s') = base_sent (base_app s_pending).
Proof.
  split; [reflexivity|]. split; [simpl; lia|].
  apply (auth_mismatch_no_session env0 s_pending 8 5 0 0 None (mkPendingBaseClient 7 key4));
    [reflexivity | simpl; lia].
Defined.

(** C3 (code evaluation): client 7 confirms its session key 1 twice; the
    bootstrap sequence is sent both times, since [sent_freq] is never set to
    true and stays false. *)
Theorem bootstrap_resent_on_reconfirm :
  match run env0 [ToBase (mkEvent 7 (EvBundle [el_session_key 1]));
                  ToBase (mkEvent 7 (EvBundle [el_session_key 1]))] s_established with
  | Done (_, s) => (count_create_player (base_sent (base_app s)),
                    logged_clients (base_app s) !! 7)
  | _ => (0%nat, None)
  end = (2%nat, Some (mkBaseClient 1 false)).
Proof. vm_compute. reflexivity. Qed.

(** C8 (code evaluation): the first bootstrap bundle carries the
    update-frequency notification before its tick stamp; the second carries
    its tick stamp first. Clock readings 300, 301, 302 s. *)
Theorem bootstrap_bundles_order :
  match base_handle_element env0 7 (el_session_key 1) s_established with
  | Done (_, s) => base_sent (base_app s)
  | _ => []
  end
  = [(7, [OUpdateFrequencyNotification 10 300; OTickSync 45]);
     (7, [OTickSync 46; OCreateBasePlayer 37289213 11 base_player_data])].
Proof. vm_compute. reflexivity. Qed.

(** C5 (counterexample): a redemption of credential 5 from address 8 removes
    the entry pending for address 7, so address 7 then redeems nothing. *)
Lemma credential_burnt_by_mismatch :
  match run env0 [ToBase (mkEvent 8 (EvBundle [el_auth 5 (Some 1)]));
                  ToBase (mkEvent 7 (EvBundle [el_auth 5 (Some 2)]))] s_pending with
  | Done (_, s) => (pending_clients (base_app s) !! 5, logged_clients (base_app s) !! 7)
  | _ => (Some (mkPendingBaseClient 7 key4), Some (BaseClient_new 1))
  end = (None, None).
Proof. vm_compute. reflexivity. Qed.

(** C5 (amended): any ClientAuth carrying a pending credential removes its
    entry, whatever the sender; from an address other than [origin_address]
    it creates no BaseClient, and a later redemption of the credential by the
    origin address finds no entry and changes nothing. *)
Theorem credential_consumed_by_any_attempt env s addr k a u rid p :
  pending_clients (base_app s) !! k = Some p ->
  pb_addr p <> addr ->
  (forall addr' a' u' rid' b s',
     base_handle_element env addr'
       (Simple ClientAuth_ID (mkReader rid' (BClientAuth k a' u'))) s = Done (b, s') ->
     pending_clients (base_app s') !! k = None)
  /\ exists s1,
    base_handle_element env addr (Simple ClientAuth_ID (mkReader rid (BClientAuth k a u))) s
    = Done (true, s1)
    /\ pending_clients (base_app s1) !! k = None
    /\ logged_clients (base_app s1) = logged_clients (base_app s)
    /\ forall a' u' rid',
         base_handle_element env (pb_addr p)
           (Simple ClientAuth_ID (mkReader rid' (BClientAuth k a' u'))) s1 = Done (true, s1).
Proof.
  intros Hk Hne. split.
  - intros addr' a' u' rid' b s'. apply base_auth_removes.
  - eexists. split; [eapply base_auth_mismatch; eassumption|].
    assert (Hnone : delete k (pending_clients (base_app s)) !! k = None)
      by apply lookup_delete_eq.
    destruct s as [la [ba pend logged cnt chans sent] cp rp]; simpl in *.
    split; [exact Hnone|]. split; [reflexivity|].
    intros a' u' rid'. apply base_auth_absent. exact Hnone.
Qed.

Lemma credential_consumed_by_any_attempt_witness :
  pending_clients (base_app s_pending) !! 5 = Some (mkPendingBaseClient 7 key4)
  /\ pb_addr (mkPendingBaseClient 7 key4) <> 8
  /\ exists s1,
    base_handle_element env0 8 (el_auth 5 None) s_pending = Done (true, s1)
    /\ pending_clients (base_app s1) !! 5 = None.
Proof.
  split; [reflexivity|]. split; [simpl; lia|].
  destruct (credential_consumed_by_any_attempt env0 s_pending 8 5 0 0 None
              (mkPendingBaseClient 7 key4)) as [_ [s1 [H1 [H2 _]]]];
    [reflexivity | simpl; lia |].
  exists s1. split; [exact H1 | exact H2].
Defined.

(** C6 (counterexample): in one batch from client 7, a confirmation with the
    wrong session key 5 is followed by one with the right key 1; the second is
    still processed and the bootstrap sequence is sent. *)
Lemma batch_continues_after_key_mismatch :
  match base_handle env0 (mkEvent 7 (EvBundle [el_session_key 5; el_session_key 1]))
          s_established with
  | Done (_, s) => count_create_player (base_sent (base_app s))
  | _ => 0%nat
  end = 1%nat.
Proof. vm_compute. reflexivity. Qed.

(** C6 (amended): only an unrecognised element kind ends the batch (on the
    Login app after creating the sender's LoginClient if untracked, on the
    Base app with no change), without reply; a redemption from a mismatched
    address (which still removes the pending entry) and a confirmation with a
    mismatched session key send nothing, leave the BaseClients as they are,
    and the batch goes on with its next element. *)
Theorem batch_abandoned_only_on_unknown env :
  (forall s addr e rest,
     base_known e = false ->
     handle_elements (base_handle_element env addr) (e :: rest) s = Done (tt, s))
  /\ (forall s addr e rest,
     login_known e = false ->
     handle_elements (login_handle_element env addr) (e :: rest) s
     = Done (tt, with_login_client addr s))
  /\ (forall s addr k a u rid p rest,
     pending_clients (base_app s) !! k = Some p ->
     pb_addr p <> addr ->
     handle_elements (base_handle_element env addr)
       (Simple ClientAuth_ID (mkReader rid (BClientAuth k a u)) :: rest) s
     = handle_elements (base_handle_element env addr) rest
         (mkSys (login_app s) (with_pending (delete k) (base_app s))
                (clock_pos s) (rng_pos s)))
  /\ (forall s addr sk c rest,
     logged_clients (base_app s) !! addr = Some c ->
     sk <> session_key c ->
     handle_elements (base_handle_element env addr) (el_session_key sk :: rest) s
     = handle_elements (base_handle_element env addr) rest s).
Proof.
  split; [|split; [|split]].
  - intros s addr e rest Hu. apply handle_elements_cons_false. by apply base_unknown.
  - intros s addr e rest Hu. apply handle_elements_cons_false. by apply login_unknown.
  - intros s addr k a u rid p rest Hk Hne. apply handle_elements_cons_true.
    eapply base_auth_mismatch; eassumption.
  - intros s addr sk c rest Hc Hne. apply handle_elements_cons_true.
    eapply base_session_key_mismatch; eassumption.
Qed.

Lemma batch_abandoned_only_on_unknown_witness :
  handle_elements (base_handle_element env0 7)
    (Reply 4 (mkReader None BOpaque) :: [el_session_key 1]) s_established
  = Done (tt, s_established)
  /\ handle_elements (base_handle_element env0 7) (el_session_key 5 :: [el_session_key 1])
       s_established
     = handle_elements (base_handle_element env0 7) [el_session_key 1] s_established.
Proof.
  destruct (batch_abandoned_only_on_unknown env0) as [H1 [_ [_ H4]]]. split.
  - apply H1. reflexivity.
  - apply (H4 s_established 7 5 (BaseClient_new 1)); [reflexivity | simpl; lia].
Defined.

(** C9 (counterexample): a ClientAuth without request token carrying an
    unknown credential is handled without panic. *)
Lemma tokenless_auth_no_panic :
  base_handle_element env0 7 (el_auth 99 None) s_established = Done (true, s_established).
Proof. vm_compute. reflexivity. Qed.

(** C9 (amended): a Ping without request token panics; a LoginRequest
    without request token panics when its key is unusable or its sender has
    not completed the challenge, and otherwise panics exactly when the
    credential allocation loop returns; a ClientAuth without request token
    panics exactly when its credential is pending for the sender; and a panic
    stops the run: no later event of either app is handled. *)
Theorem tokenless_panics env :
  (forall s addr num,
     login_handle_element env addr (el_ping num None) s = Panic unwrap_none_msg)
  /\ (forall s addr user pass key,
     blowfish_new_from_slice key = None \/ challenge_flag addr s = false ->
     login_handle_element env addr
       (Simple LoginRequest_ID (mkReader None (BLoginRequest user pass key))) s
     = Panic unwrap_none_msg)
  /\ (forall s addr user pass key bf,
     blowfish_new_from_slice key = Some bf -> challenge_flag addr s = true ->
     login_handle_element env addr
       (Simple LoginRequest_ID (mkReader None (BLoginRequest user pass key))) s
     = if is_done (alloc_pending_client env addr bf s) then Panic unwrap_none_msg
       else Diverge)
  /\ (forall s addr k a u,
     (exists msg, base_handle_element env addr
        (Simple ClientAuth_ID (mkReader None (BClientAuth k a u))) s = Panic msg)
     <-> exists p, pending_clients (base_app s) !! k = Some p /\ pb_addr p = addr)
  /\ (forall s e rest msg,
     sys_handle env e s = Panic msg -> run env (e :: rest) s = Panic msg).
Proof.
  split; [|split; [|split; [|split]]].
  - intros s addr num. unfold login_handle_element, login_client_entry, el_ping. unfold_m.
    destruct (clients (login_app s) !! addr); simpl; reflexivity.
  - intros s addr user pass key Hk.
    assert (Hf : blowfish_new_from_slice key = None \/
      challenge_complete (default (LoginClient_new addr) (clients (login_app s) !! addr))
      = false).
    { destruct Hk as [Hk|Hk]; [left; exact Hk|right].
      unfold challenge_flag in Hk. destruct (clients (login_app s) !! addr); exact Hk. }
    unfold login_handle_element. unfold bind at 1. rewrite login_client_entry_eq. unfold_m.
    destruct Hf as [Hb|Hf]; [rewrite Hb; reflexivity|].
    destruct (blowfish_new_from_slice key); [|reflexivity]. simpl.
    unfold set_login_client. unfold_m. rewrite Hf. reflexivity.
  - intros s addr user pass key bf Hbf Hf. unfold challenge_flag in Hf.
    destruct (clients (login_app s) !! addr) as [c|] eqn:Hc; [|discriminate Hf].
    unfold login_handle_element. unfold bind at 1. rewrite login_client_entry_eq.
    unfold with_login_client. rewrite Hc. simpl. unfold_m. rewrite Hbf. simpl.
    unfold set_login_client. unfold_m. rewrite Hf. simpl.
    unfold alloc_pending_client.
    remember (alloc_loop env (alloc_fuel env) addr bf s) as o eqn:Ho.
    match goal with
    | |- context [alloc_loop ?e ?f ?ad ?bb ?st] =>
        pose proof (alloc_loop_done_indep e f ad bb addr bf st s eq_refl eq_refl) as Hi;
        destruct (alloc_loop_no_panic e f ad bb st) as [Hd|[k0 [s2 Hd]]]; rewrite Hd in *
    end; rewrite <- Ho in Hi; simpl in Hi; rewrite <- Hi; reflexivity.
  - intros s addr k a u. split.
    + intros [msg Hm]. destruct (pending_clients (base_app s) !! k) as [p|] eqn:Hk.
      * exists p. split; [reflexivity|].
        destruct (decide (pb_addr p = addr)) as [|Hne]; [assumption|].
        rewrite (base_auth_mismatch env s addr k a u None p Hk Hne) in Hm. discriminate.
      * rewrite (base_auth_absent env s addr k a u None Hk) in Hm. discriminate.
    + intros [p [Hk Ha]].
      destruct (decide (logged_counter (base_app s) < u32_max)) as [Hc|Hc].
      * exists unwrap_none_msg. apply (base_auth_no_token env s addr k a u p); assumption.
      * exists "too much logged clients"%string.
        apply (base_auth_overflow env s addr k a u None p); [assumption | assumption | lia].
  - intros s e rest msg H. simpl. unfold bind. rewrite H. reflexivity.
Qed.

Lemma tokenless_panics_witness :
  login_handle_element env0 7 (el_ping 1 None) s_established = Panic unwrap_none_msg
  /\ login_handle_element env0 7
       (Simple LoginRequest_ID (mkReader None (BLoginRequest "user" "pass" [1; 2; 3])))
       (final_state scenario_login) = Panic unwrap_none_msg
  /\ login_handle_element env0 7
       (Simple LoginRequest_ID (mkReader None (BLoginRequest "user" "pass" key4)))
       (init_sys 1 2) = Panic unwrap_none_msg
  /\ login_handle_element env0 7
       (Simple LoginRequest_ID (mkReader None (BLoginRequest "user" "pass" key4)))
       (final_state scenario_login) = Panic unwrap_none_msg
  /\ (exists msg, base_handle_element env0 7
        (Simple ClientAuth_ID (mkReader None (BClientAuth 5 0 0))) s_pending = Panic msg)
  /\ run env0 [ToLogin (mkEvent 7 (EvBundle [el_ping 1 None])); ToBase (mkEvent 7 EvPacketError)]
       (init_sys 1 2) = Panic unwrap_none_msg.
Proof.
  destruct (tokenless_panics env0) as [H1 [H2 [H3 [H4 H5]]]].
  split; [apply H1|]. split; [apply H2; left; reflexivity|].
  split; [apply H2; right; reflexivity|].
  split; [rewrite (H3 _ 7 "user"%string "pass"%string key4 key4 eq_refl);
          [vm_compute; reflexivity | vm_compute; reflexivity]|].
  split; [apply H4; exists (mkPendingBaseClient 7 key4); split; reflexivity|].
  apply H5. vm_compute. reflexivity.
Defined.

(** C4: over any run from start-up, the session keys replied are exactly
    1, 2, ..., logged_counter in order, hence pairwise distinct, non-zero and
    within u32; once the counter is at the u32 bound, the next valid
    redemption panics and stops the process. *)
Theorem session_keys_counter env lb bb evs s :
  run env evs (init_sys lb bb) = Done (tt, s) ->
  issued_keys (base_sent (base_app s)) = key_range (logged_counter (base_app s))
  /\ NoDup (issued_keys (base_sent (base_app s)))
  /\ Forall (fun k => 1 <= k <= u32_max) (issued_keys (base_sent (base_app s)))
  /\ (forall addr k a u rid p rest,
        pending_clients (base_app s) !! k = Some p ->
        pb_addr p = addr ->
        logged_counter (base_app s) = u32_max ->
        run env (ToBase (mkEvent addr
                   (EvBundle [Simple ClientAuth_ID (mkReader rid (BClientAuth k a u))])) :: rest) s
        = Panic "too much logged clients").
Proof.
  intros H. destruct (base_inv_run env evs lb bb s H) as [Hk [Hc _]].
  rewrite Hk. split; [reflexivity|]. split; [|split].
  - unfold key_range. apply NoDup_ListNoDup.
    apply NoDup_map_NoDup_ForallPairs; [|apply seq_NoDup].
    intros x y _ _ Hxy. lia.
  - apply Forall_forall. intros k Hin. unfold key_range in Hin.
    apply list_elem_of_In, in_map_iff in Hin as [n [<- Hn]]. apply in_seq in Hn. lia.
  - intros addr k a u rid p rest Hp Ha Hmax. simpl. unfold bind, base_handle. simpl.
    unfold bind. rewrite (base_auth_overflow env s addr k a u rid p Hp Ha) by lia.
    reflexivity.
Qed.

Lemma session_keys_counter_witness :
  run env0 scenario_a (init_sys 1 2) = Done (tt, final_state scenario_a)
  /\ issued_keys (base_sent (base_app (final_state scenario_a)))
     = key_range (logged_counter (base_app (final_state scenario_a))).
Proof.
  assert (H : run env0 scenario_a (init_sys 1 2) = Done (tt, final_state scenario_a))
    by (vm_compute; reflexivity).
  split; [exact H|]. apply (session_keys_counter env0 1 2 scenario_a _ H).
Defined.

(** C10: when an address with an established BaseClient redeems a second
    credential pending for it, its BaseClient is replaced by one with a fresh,
    strictly larger session key and [sent_freq] false, the new key is replied,
    and a confirmation with the previous key is then a mismatch that does
    nothing. *)
Theorem reauth_replaces_client env lb bb evs s addr old k p a u r :
  run env evs (init_sys lb bb) = Done (tt, s) ->
  logged_clients (base_app s) !! addr = Some old ->
  pending_clients (base_app s) !! k = Some p ->
  pb_addr p = addr ->
  logged_counter (base_app s) < u32_max ->
  exists s',
    base_handle_element env addr (Simple ClientAuth_ID (mkReader (Some r) (BClientAuth k a u))) s
    = Done (true, s')
    /\ logged_clients (base_app s') !! addr
       = Some (mkBaseClient (logged_counter (base_app s) + 1) false)
    /\ session_key old < logged_counter (base_app s) + 1
    /\ last (base_sent (base_app s'))
       = Some (addr, [OServerSessionKey (logged_counter (base_app s) + 1) r])
    /\ base_handle_element env addr (el_session_key (session_key old)) s' = Done (true, s').
Proof.
  intros Hrun Hold Hk Ha Hc.
  destruct (base_inv_run env evs lb bb s Hrun) as [_ [_ Hl]].
  specialize (Hl addr old Hold).
  eexists. split; [apply (base_auth_match env s addr k a u r p Hk Ha Hc)|]. simpl.
  split; [apply lookup_insert_eq|]. split; [lia|]. split.
  - apply last_snoc.
  - apply (base_session_key_mismatch env _ addr _ (BaseClient_new (logged_counter (base_app s) + 1))).
    + simpl. apply lookup_insert_eq.
    + simpl. lia.
Qed.

Lemma reauth_replaces_client_witness :
  run env0 scenario_relogin (init_sys 1 2) = Done (tt, final_state scenario_relogin)
  /\ exists s',
    base_handle_element env0 7 (el_auth 1014 (Some 11)) (final_state scenario_relogin)
    = Done (true, s')
    /\ logged_clients (base_app s') !! 7 = Some (mkBaseClient 2 false).
Proof.
  assert (H : run env0 scenario_relogin (init_sys 1 2) = Done (tt, final_state scenario_relogin))
    by (vm_compute; reflexivity).
  split; [exact H|].
  destruct (reauth_replaces_client env0 1 2 scenario_relogin _ 7 (BaseClient_new 1) 1014
              (mkPendingBaseClient 7 key4) 0 0 11 H) as [s' [H1 [H2 _]]];
    [vm_compute; reflexivity | vm_compute; reflexivity | reflexivity
    | vm_compute; reflexivity |].
  exists s'. split; [exact H1|]. etransitivity; [exact H2|]. vm_compute. reflexivity.
Defined.

(** C7: over any run from start-up, the [challenge_complete] flag of an
    address is true exactly when a challenge-answer element from that address
    has been handled (false before, including at the LoginClient's creation);
    it never goes back to false; and the answer's content plays no part. *)
Theorem challenge_complete_flag env lb bb evs s addr :
  run env evs (init_sys lb bb) = Done (tt, s) ->
  challenge_flag addr s = existsb is_challenge_response (login_received addr evs)
  /\ (forall evs' s',
        run env evs' s = Done (tt, s') ->
        challenge_flag addr s = true -> challenge_flag addr s' = true)
  /\ (forall t a rid rid' d d' sol sol',
        login_handle_element env a
          (Simple ChallengeResponse_ID (mkReader rid (BChallengeResponse d sol))) t
        = login_handle_element env a
          (Simple ChallengeResponse_ID (mkReader rid' (BChallengeResponse d' sol'))) t).
Proof.
  intros H. split; [|split].
  - apply (run_flag env evs _ _ addr) in H. rewrite H. reflexivity.
  - intros evs' s' H' Ht. apply (run_flag env evs' _ _ addr) in H'. rewrite H', Ht. reflexivity.
  - intros t a rid rid' d d' sol sol'. unfold login_handle_element.
    unfold bind. rewrite !login_client_entry_eq. reflexivity.
Qed.

Lemma challenge_complete_flag_witness :
  run env0 scenario_login (init_sys 1 2) = Done (tt, final_state scenario_login)
  /\ challenge_flag 7 (final_state scenario_login)
     = existsb is_challenge_response (login_received 7 scenario_login).
Proof.
  assert (H : run env0 scenario_login (init_sys 1 2) = Done (tt, final_state scenario_login))
    by (vm_compute; reflexivity).
  split; [exact H|]. apply (challenge_complete_flag env0 1 2 scenario_login _ 7 H).
Defined.

(** C1: once a credential has been redeemed by its origin address (BaseClient
    created, session key replied), and as long as the Login app does not issue
    that same value as a new credential, every later ClientAuth carrying it,
    from any address, finds no entry and leaves the state and the outboxes
    unchanged: no BaseClient, no session key, no reply. *)
Theorem consumed_credential_dead env s0 addr k a u r p s1 evs s2 :
  pending_clients (base_app s0) !! k = Some p ->
  pb_addr p = addr ->
  base_handle_element env addr (Simple ClientAuth_ID (mkReader (Some r) (BClientAuth k a u))) s0
  = Done (true, s1) ->
  run env evs s1 = Done (tt, s2) ->
  count_key k (login_sent (login_app s2)) = count_key k (login_sent (login_app s1)) ->
  forall addr' a' u' rid',
    base_handle_element env addr' (Simple ClientAuth_ID (mkReader rid' (BClientAuth k a' u'))) s2
    = Done (true, s2).
Proof.
  intros Hk Ha Hauth Hrun Hcount addr' a' u' rid'.
  apply base_auth_absent.
  assert (Hd : credential_dead k (count_key k (login_sent (login_app s1))) s2).
  { eapply run_inv; [| | | exact Hrun].
    - intros; eapply credential_dead_login_step; eassumption.
    - intros; eapply credential_dead_base_step; eassumption.
    - split; [lia|]. left. eapply base_auth_removes. exact Hauth. }
  destruct Hd as [_ [Hd|Hd]]; [exact Hd|]. lia.
Qed.

Lemma consumed_credential_dead_witness :
  base_handle_element env0 8 (el_auth 1007 (Some 3))
    (final_state (scenario_a ++ [ToBase (mkEvent 7 (EvBundle [el_session_key 1]))]))
  = Done (true, final_state (scenario_a ++ [ToBase (mkEvent 7 (EvBundle [el_session_key 1]))])).
Proof.
  apply (consumed_credential_dead env0 (final_state scenario_login) 7 1007 0 0 9
           (mkPendingBaseClient 7 key4) (final_state scenario_a)
           [ToBase (mkEvent 7 (EvBundle [el_session_key 1]))]);
    vm_compute; reflexivity.
Defined.

(** ** Further properties of the handlers *)

Lemma login_step_clients env addr e s b s' :
  login_handle_element env addr e s = Done (b, s') ->
  (forall a, a <> addr -> clients (login_app s') !! a = clients (login_app s) !! a)
  /\ exists c', clients (login_app s') !! addr = Some c'
     /\ lc_addr c' = lc_addr (default (LoginClient_new addr) (clients (login_app s) !! addr)).
Proof.
  intros H. unfold login_handle_element in H. unfold bind at 1 in H.
  rewrite login_client_entry_eq in H.
  assert (Ho : forall a, a <> addr ->
    clients (login_app (with_login_client addr s)) !! a = clients (login_app s) !! a).
  { intros a Ha. unfold with_login_client.
    destruct (clients (login_app s) !! addr); [reflexivity|]. simpl.
    apply lookup_insert_ne. congruence. }
  destruct (with_login_client_facts addr s) as [_ [_ Hl]].
  remember (with_login_client addr s) as t eqn:Ht. clear Ht.
  remember (default (LoginClient_new addr) (clients (login_app s) !! addr)) as c eqn:Hc.
  clear Hc.
  assert (Hins : forall c', lc_addr c' = lc_addr c ->
    (forall a, a <> addr -> (<[addr:=c']> (clients (login_app t))) !! a = clients (login_app s) !! a)
    /\ exists c'', (<[addr:=c']> (clients (login_app t))) !! addr = Some c''
       /\ lc_addr c'' = lc_addr c).
  { intros c' Hc'. split.
    - intros a Ha. rewrite lookup_insert_ne by congruence. auto.
    - exists c'. split; [apply lookup_insert_eq|exact Hc']. }
  assert (Hsame : (forall a, a <> addr -> clients (login_app t) !! a = clients (login_app s) !! a)
    /\ exists c'', clients (login_app t) !! addr = Some c'' /\ lc_addr c'' = lc_addr c)
    by (split; [exact Ho| exists c; auto]).
  destruct e as [id [rid bdy]|id r].
  2: { unfold_m. inversion H; subst. exact Hsame. }
  destruct (decide (id = Ping_ID)) as [->|H1].
  { destruct bdy as [num| | | | |]; unfold_m; try discriminate H.
    destruct rid; simpl in H; [|discriminate H]. inversion H; subst; simpl. exact Hsame. }
  destruct (decide (id = LoginRequest_ID)) as [->|H2].
  { destruct bdy as [|user pass key| | | |]; unfold_m; try discriminate H.
    destruct (blowfish_new_from_slice key) as [bf|]; simpl in H; [|discriminate H].
    unfold set_login_client in H. unfold_m.
    destruct (challenge_complete c) eqn:Hcc; simpl in H.
    - unfold alloc_pending_client in H.
      match type of H with
      | context [alloc_loop ?e ?f ?ad ?bb ?st] =>
          destruct (alloc_loop e f ad bb st) as [[k0 s2]| |] eqn:Hal; try discriminate H;
          apply alloc_loop_shape in Hal as [Hal1 _]
      end.
      simpl in H. destruct rid; simpl in H; [|discriminate H].
      inversion H; subst; simpl in *. rewrite Hal1. simpl. apply Hins. reflexivity.
    - destruct rid; simpl in H; [|discriminate H].
      inversion H; subst; simpl. apply Hins. reflexivity. }
  destruct (decide (id = ChallengeResponse_ID)) as [->|H3].
  { destruct bdy as [| |d sol| | |]; unfold_m; try discriminate H.
    unfold set_login_client in H. unfold_m. inversion H; subst. simpl.
    apply Hins. reflexivity. }
  unfold_m. inversion H; subst. exact Hsame.
Qed.

Lemma base_step_channels env addr e s b s' :
  base_handle_element env addr e s = Done (b, s') ->
  (logged_clients (base_app s') = logged_clients (base_app s)
   /\ channels (base_app s') = channels (base_app s))
  \/ exists bf,
     channels (base_app s') = <[addr := bf]> (channels (base_app s))
     /\ logged_clients (base_app s')
        = <[addr := BaseClient_new (logged_counter (base_app s) + 1)]>
            (logged_clients (base_app s)).
Proof.
  intros H.
  destruct e as [id [rid bdy]|id r];
    [|unfold base_handle_element in H; unfold_m; inversion H; subst; left; auto].
  destruct (decide (id = ClientAuth_ID)) as [->|Hid1].
  - destruct bdy as [| | |k a u| |];
      try (unfold base_handle_element in H; unfold_m; discriminate H).
    destruct (pending_clients (base_app s) !! k) as [p|] eqn:Hk.
    + destruct (decide (pb_addr p = addr)) as [Ha|Ha].
      * destruct (decide (logged_counter (base_app s) < u32_max)) as [Hc|Hc].
        -- destruct rid as [r|].
           ++ rewrite (base_auth_match env s addr k a u r p Hk Ha Hc) in H.
              inversion H; subst; simpl. right. eauto.
           ++ rewrite (base_auth_no_token env s addr k a u p Hk Ha Hc) in H. discriminate H.
        -- rewrite (base_auth_overflow env s addr k a u rid p Hk Ha) in H by lia.
           discriminate H.
      * rewrite (base_auth_mismatch env s addr k a u rid p Hk Ha) in H.
        inversion H; subst; simpl. left. auto.
    + rewrite (base_auth_absent env s addr k a u rid Hk) in H. inversion H; subst. left. auto.
  - destruct (decide (id = ClientSessionKey_ID)) as [->|Hid2].
    + destruct bdy as [| | | |sk|];
        try (unfold base_handle_element in H; unfold_m; discriminate H).
      destruct s as [la [ba pend logged cnt chans sent] cp rp].
      unfold base_handle_element in H. unfold_m.
      destruct (logged !! addr) as [c|].
      * destruct (decide (sk = session_key c)); [destruct (sent_freq c)|]; simpl in H;
          inversion H; subst; simpl; left; auto.
      * inversion H; subst; simpl. left. auto.
    + rewrite base_unknown in H
        by (simpl; apply orb_false_iff; split; apply bool_decide_eq_false; assumption).
      inversion H; subst. left. auto.
Qed.

Lemma alloc_loop_range env fuel addr bf s k s' :
  alloc_loop env fuel addr bf s = Done (k, s') -> 0 <= k < 2 ^ 32.
Proof.
  revert s. induction fuel as [|fuel IH]; intros s H; simpl in H; [discriminate H|].
  unfold bind, gets, next_u32, ret, modify_base in H. simpl in H.
  destruct (pending_clients (base_app s) !! (rng env (rng_pos s) mod 2 ^ 32)) eqn:Hk.
  - eapply IH. exact H.
  - inversion H; subst. apply Z.mod_pos_bound. lia.
Qed.

Lemma login_step_pending env addr e s b s' :
  login_handle_element env addr e s = Done (b, s') ->
  base_app s' = base_app s
  \/ exists key bf,
     base_app s' = with_pending
       (insert key (mkPendingBaseClient
          (lc_addr (default (LoginClient_new addr) (clients (login_app s) !! addr))) bf))
       (base_app s)
     /\ challenge_flag addr s = true.
Proof.
  intros H. unfold login_handle_element in H. unfold bind at 1 in H.
  rewrite login_client_entry_eq in H.
  destruct (with_login_client_facts addr s) as [Hb _].
  assert (Hf : challenge_flag addr s
    = challenge_complete (default (LoginClient_new addr) (clients (login_app s) !! addr))).
  { unfold challenge_flag. destruct (clients (login_app s) !! addr); reflexivity. }
  remember (with_login_client addr s) as t eqn:Ht. clear Ht.
  remember (default (LoginClient_new addr) (clients (login_app s) !! addr)) as c eqn:Hc.
  clear Hc.
  destruct e as [id [rid bdy]|id r].
  2: { unfold_m. inversion H; subst. left. exact Hb. }
  destruct (decide (id = Ping_ID)) as [->|H1].
  { destruct bdy as [num| | | | |]; unfold_m; try discriminate H.
    destruct rid; simpl in H; [|discriminate H]. inversion H; subst; simpl. left. exact Hb. }
  destruct (decide (id = LoginRequest_ID)) as [->|H2].
  { destruct bdy as [|user pass key| | | |]; unfold_m; try discriminate H.
    destruct (blowfish_new_from_slice key) as [bf|]; simpl in H; [|discriminate H].
    unfold set_login_client in H. unfold_m.
    destruct (challenge_complete c) eqn:Hcc; simpl in H.
    - unfold alloc_pending_client in H.
      match type of H with
      | context [alloc_loop ?e ?f ?ad ?bb ?st] =>
          destruct (alloc_loop e f ad bb st) as [[k0 s2]| |] eqn:Hal; try discriminate H;
          apply alloc_loop_shape in Hal as [_ [_ Hal3]]
      end.
      simpl in H. destruct rid; simpl in H; [|discriminate H].
      inversion H; subst; simpl in *. right. exists k0, bf. split; [|congruence].
      rewrite Hal3. simpl. rewrite Hb. reflexivity.
    - destruct rid; simpl in H; [|discriminate H].
      inversion H; subst; simpl. left. exact Hb. }
  destruct (decide (id = ChallengeResponse_ID)) as [->|H3].
  { destruct bdy as [| |d sol| | |]; unfold_m; try discriminate H.
    unfold set_login_client in H. unfold_m. inversion H; subst. left. exact Hb. }
  unfold_m. inversion H; subst. left. exact Hb.
Qed.

Lemma keyed_lc_addr s addr :
  login_clients_keyed s ->
  lc_addr (default (LoginClient_new addr) (clients (login_app s) !! addr)) = addr.
Proof.
  intros Hk. destruct (clients (login_app s) !! addr) eqn:E; simpl; [|reflexivity].
  eapply Hk. exact E.
Qed.

Lemma keyed_login_step env a e s b s' :
  login_clients_keyed s -> login_handle_element env a e s = Done (b, s') ->
  login_clients_keyed s'.
Proof.
  intros Hk H. destruct (login_step_clients env a e s b s' H) as [Ho [c' [Hc' Hl]]].
  intros a' c Ha'. destruct (decide (a' = a)) as [->|Hne].
  - rewrite Hc' in Ha'. inversion Ha'; subst. rewrite Hl. apply keyed_lc_addr. exact Hk.
  - rewrite Ho in Ha' by exact Hne. eapply Hk. exact Ha'.
Qed.

Lemma keyed_base_step env a e s b s' :
  login_clients_keyed s -> base_handle_element env a e s = Done (b, s') ->
  login_clients_keyed s'.
Proof.
  intros Hk H. apply base_step_shape in H as [Hl _].
  unfold login_clients_keyed. rewrite Hl. exact Hk.
Qed.

Lemma login_clients_keyed_inv env evs lb bb s :
  run env evs (init_sys lb bb) = Done (tt, s) -> login_clients_keyed s.
Proof.
  intros H. eapply run_inv; [apply keyed_login_step | apply keyed_base_step | | exact H].
  intros a c Ha. simpl in Ha. rewrite lookup_empty in Ha. discriminate Ha.
Qed.

Lemma keyed_init lb bb : login_clients_keyed (init_sys lb bb).
Proof. intros a c Ha. simpl in Ha. rewrite lookup_empty in Ha. discriminate Ha. Qed.

Lemma login_success_step env s addr rid key bf b s' :
  login_clients_keyed s -> challenge_flag addr s = true ->
  blowfish_new_from_slice key = Some bf ->
  login_handle_element env addr (el_login_request_of rid key) s = Done (b, s') ->
  b = true
  /\ exists k,
     pending_clients (base_app s) !! k = None
     /\ base_app s' = with_pending (insert k (mkPendingBaseClient addr bf)) (base_app s)
     /\ login_sent (login_app s')
        = login_sent (login_app s)
          ++ [(addr, [OLoginSuccess (base_addr (base_app s)) k EmptyString bf rid])]
     /\ clients (login_app s') !! addr = Some (mkLoginClient addr (Some bf) true).
Proof.
  intros Hk Hf Hbf H. unfold challenge_flag in Hf.
  destruct (clients (login_app s) !! addr) as [c|] eqn:Hc; [|discriminate Hf].
  assert (Ha : lc_addr c = addr) by (eapply Hk; exact Hc).
  unfold login_handle_element in H. unfold bind at 1 in H.
  rewrite login_client_entry_eq in H. unfold with_login_client in H. rewrite Hc in H.
  simpl in H. unfold el_login_request_of in H. unfold_m.
  rewrite Hbf in H. unfold set_login_client in H. unfold_m. rewrite Hf, Ha in H. simpl in H.
  unfold alloc_pending_client in H.
  match type of H with
  | context [alloc_loop ?e ?f ?ad ?bb ?st] =>
      destruct (alloc_loop e f ad bb st) as [[k0 s2]| |] eqn:Hal; try discriminate H;
      apply alloc_loop_shape in Hal as [Hal1 [Hal2 Hal3]]
  end.
  simpl in *. inversion H; subst; simpl in *. split; [reflexivity|].
  exists k0. split; [exact Hal2|]. split; [rewrite Hal3; reflexivity|].
  split; [rewrite Hal1; reflexivity|]. rewrite Hal1. simpl. apply lookup_insert_eq.
Qed.

(** *** X1: [alloc_pending_client] *)

(** X1: a credential allocated by [alloc_pending_client] is a u32 that was vacant in the
    registry; the registry gains exactly that entry, for the requesting address and key,
    and nothing else of either app changes. *)
Theorem alloc_pending_client_fresh env addr bf s k s' :
  alloc_pending_client env addr bf s = Done (k, s') ->
  0 <= k < 2 ^ 32
  /\ pending_clients (base_app s) !! k = None
  /\ base_app s' = with_pending (insert k (mkPendingBaseClient addr bf)) (base_app s)
  /\ login_app s' = login_app s.
Proof.
  unfold alloc_pending_client. intros H.
  pose proof (alloc_loop_range _ _ _ _ _ _ _ H) as Hr.
  apply alloc_loop_shape in H as [H1 [H2 H3]]. auto.
Qed.

Lemma alloc_pending_client_fresh_witness :
  alloc_pending_client env_collide 8 key4 s_pending = Done (6, alloc_demo_state)
  /\ pending_clients (base_app alloc_demo_state)
     = <[6 := mkPendingBaseClient 8 key4]> {[5 := mkPendingBaseClient 7 key4]}.
Proof.
  assert (H : alloc_pending_client env_collide 8 key4 s_pending = Done (6, alloc_demo_state))
    by (vm_compute; reflexivity).
  split; [exact H|].
  destruct (alloc_pending_client_fresh env_collide 8 key4 s_pending 6 alloc_demo_state H)
    as [_ [_ [Hb _]]].
  rewrite Hb. reflexivity.
Defined.

(** *** X2: LoginClients are keyed by their own address *)

(** X2: in every state reachable from the start of [main], each LoginClient of the
    Login app's map is stored under its own address. *)
Theorem login_clients_keyed_run env lb bb evs s :
  run env evs (init_sys lb bb) = Done (tt, s) -> login_clients_keyed s.
Proof. apply login_clients_keyed_inv. Qed.

Lemma login_clients_keyed_run_witness :
  run env0 scenario_a (init_sys 1 2) = Done (tt, final_state scenario_a)
  /\ login_clients_keyed (final_state scenario_a).
Proof.
  assert (H : run env0 scenario_a (init_sys 1 2) = Done (tt, final_state scenario_a))
    by (vm_compute; reflexivity).
  split; [exact H|]. exact (login_clients_keyed_run env0 1 2 scenario_a _ H).
Defined.

(** *** X3: Ping *)

(** X3: a Ping is answered to its sender with a Pong echoing its number and request id,
    the only other effect being the creation of the sender's LoginClient; a Ping
    without a request id panics. *)
Theorem ping_pong env s addr num rid :
  login_clients_keyed s ->
  login_handle_element env addr (el_ping num rid) s
  = match rid with
    | Some r =>
        Done (true, mkSys (with_login_sent (fun l => l ++ [(addr, [OPong num r])])
                             (login_app (with_login_client addr s)))
                          (base_app s) (clock_pos s) (rng_pos s))
    | None => Panic unwrap_none_msg
    end.
Proof.
  intros Hk. pose proof (keyed_lc_addr s addr Hk) as Ha.
  destruct (with_login_client_facts addr s) as [Hb _].
  unfold login_handle_element. unfold bind at 1. rewrite login_client_entry_eq.
  unfold el_ping. unfold_m. rewrite Ha.
  destruct rid as [r|]; simpl; [|reflexivity].
  rewrite <- Hb. unfold with_login_client.
  destruct (clients (login_app s) !! addr); reflexivity.
Qed.

Lemma ping_pong_witness :
  login_clients_keyed (init_sys 1 2)
  /\ login_handle_element env0 7 (el_ping 42 (Some 3)) (init_sys 1 2)
     = Done (true, mkSys (mkLoginApp 1 {[7 := LoginClient_new 7]} [(7, [OPong 42 3])])
                         (base_app (init_sys 1 2)) 0 0).
Proof.
  split; [apply keyed_init|].
  rewrite (ping_pong env0 (init_sys 1 2) 7 42 (Some 3) (keyed_init 1 2)). reflexivity.
Defined.

(** *** X4-X6: LoginRequest *)

(** X4: a LoginRequest with a valid key from a client that has not answered a challenge
    stores the key, keeps the flag cleared, and replies with a CuckooCycle challenge whose
    prefix is the next u64 of the OS rng and whose max nonce is 943718; the Base app is
    left unchanged. *)
Theorem login_request_challenge env s addr rid key bf :
  login_clients_keyed s -> challenge_flag addr s = false ->
  blowfish_new_from_slice key = Some bf ->
  login_handle_element env addr (el_login_request_of rid key) s
  = Done (true,
      mkSys (mkLoginApp (login_addr (login_app s))
               (<[addr := mkLoginClient addr (Some bf) false]> (clients (login_app s)))
               (login_sent (login_app s)
                ++ [(addr, [OLoginChallenge
                              (CuckooCycle (rng env (rng_pos s) mod 2 ^ 64) cuckoo_max_nonce)
                              bf rid])]))
        (base_app s) (clock_pos s) (S (rng_pos s))).
Proof.
  intros Hk Hf Hbf. pose proof (keyed_lc_addr s addr Hk) as Ha.
  assert (Hf' : challenge_complete
                  (default (LoginClient_new addr) (clients (login_app s) !! addr)) = false).
  { unfold challenge_flag in Hf. destruct (clients (login_app s) !! addr); exact Hf. }
  unfold login_handle_element. unfold bind at 1. rewrite login_client_entry_eq.
  unfold el_login_request_of. unfold_m. rewrite Hbf. unfold set_login_client. unfold_m.
  rewrite Hf', Ha. simpl. unfold next_u64. simpl.
  unfold with_login_client. destruct (clients (login_app s) !! addr); simpl;
    [reflexivity|]. rewrite insert_insert_eq. reflexivity.
Qed.

Lemma login_request_challenge_witness :
  login_handle_element env0 7 (el_login_request_of 5 key4) (init_sys 1 2)
  = Done (true,
      mkSys (mkLoginApp 1 {[7 := mkLoginClient 7 (Some key4) false]}
               [(7, [OLoginChallenge (CuckooCycle 1000 943718) key4 5])])
        (base_app (init_sys 1 2)) 0 1).
Proof.
  rewrite (login_request_challenge env0 (init_sys 1 2) 7 5 key4 key4 (keyed_init 1 2));
    [|reflexivity|reflexivity]. reflexivity.
Defined.

(** X5: a LoginRequest with a valid key from a client that has answered a challenge
    registers a fresh credential for the sender's address and key (the registry gains
    exactly that entry) and replies with LoginSuccess carrying the Base app's address,
    that credential, an empty server message and the key. *)
Theorem login_request_success env s addr rid key bf b s' :
  login_clients_keyed s -> challenge_flag addr s = true ->
  blowfish_new_from_slice key = Some bf ->
  login_handle_element env addr (el_login_request_of rid key) s = Done (b, s') ->
  b = true
  /\ exists k,
     pending_clients (base_app s) !! k = None
     /\ base_app s' = with_pending (insert k (mkPendingBaseClient addr bf)) (base_app s)
     /\ login_sent (login_app s')
        = login_sent (login_app s)
          ++ [(addr, [OLoginSuccess (base_addr (base_app s)) k EmptyString bf rid])]
     /\ clients (login_app s') !! addr = Some (mkLoginClient addr (Some bf) true).
Proof. apply login_success_step. Qed.

Lemma login_request_success_witness :
  let s := final_state scenario_login in
  login_handle_element env0 7 (el_login_request_of 8 key4) s
  = Done (true, login_after env0 7 (el_login_request_of 8 key4) s)
  /\ pending_clients (base_app (login_after env0 7 (el_login_request_of 8 key4) s)) !! 1014
     = Some (mkPendingBaseClient 7 key4).
Proof.
  intros s.
  assert (Hr : run env0 scenario_login (init_sys 1 2) = Done (tt, s))
    by (vm_compute; reflexivity).
  assert (H : login_handle_element env0 7 (el_login_request_of 8 key4) s
              = Done (true, login_after env0 7 (el_login_request_of 8 key4) s))
    by (vm_compute; reflexivity).
  split; [exact H|].
  destruct (login_request_success env0 s 7 8 key4 key4 true _
              (login_clients_keyed_inv env0 scenario_login 1 2 s Hr) ltac:(vm_compute; reflexivity)
              ltac:(reflexivity) H) as [_ [k [Hk [Hb [Hs _]]]]].
  rewrite Hb. simpl.
  assert (Hk' : k = 1014).
  { assert (Hl := f_equal (@last _) Hs). rewrite last_snoc in Hl.
    vm_compute in Hl. congruence. }
  subst k. apply lookup_insert_eq.
Defined.

(** X6: after a verified client's LoginRequest succeeds, redeeming the credential carried
    by the LoginSuccess at the Base app from the same address succeeds: the channel is
    encrypted with the key sent at login, a BaseClient with the next session key is
    tracked, and the registry is back to what it was before the login. *)
Theorem login_success_then_auth env s addr rid key bf b s1 r a u :
  login_clients_keyed s -> challenge_flag addr s = true ->
  blowfish_new_from_slice key = Some bf ->
  logged_counter (base_app s) < u32_max ->
  login_handle_element env addr (el_login_request_of rid key) s = Done (b, s1) ->
  exists k,
    last (login_sent (login_app s1))
    = Some (addr, [OLoginSuccess (base_addr (base_app s)) k EmptyString bf rid])
    /\ exists s2,
       base_handle_element env addr
         (Simple ClientAuth_ID (mkReader (Some r) (BClientAuth k a u))) s1 = Done (true, s2)
       /\ channels (base_app s2) !! addr = Some bf
       /\ logged_clients (base_app s2) !! addr
          = Some (BaseClient_new (logged_counter (base_app s) + 1))
       /\ pending_clients (base_app s2) = pending_clients (base_app s).
Proof.
  intros Hk Hf Hbf Hc H.
  destruct (login_success_step env s addr rid key bf b s1 Hk Hf Hbf H)
    as [_ [k [Hn [Hb [Hs _]]]]].
  exists k. split; [rewrite Hs; apply last_snoc|].
  assert (Hp : pending_clients (base_app s1) !! k = Some (mkPendingBaseClient addr bf))
    by (rewrite Hb; apply lookup_insert_eq).
  assert (Hc1 : logged_counter (base_app s1) < u32_max) by (rewrite Hb; exact Hc).
  eexists. split; [apply (base_auth_match env s1 addr k a u r _ Hp eq_refl Hc1)|].
  simpl. rewrite Hb. simpl. split; [apply lookup_insert_eq|]. split; [apply lookup_insert_eq|].
  apply delete_insert_id. exact Hn.
Qed.

Lemma login_success_then_auth_witness :
  let s := final_state scenario_login in
  login_handle_element env0 7 (el_login_request_of 8 key4) s
  = Done (true, login_after env0 7 (el_login_request_of 8 key4) s)
  /\ exists k s2,
     base_handle_element env0 7 (Simple ClientAuth_ID (mkReader (Some 9) (BClientAuth k 0 0)))
       (login_after env0 7 (el_login_request_of 8 key4) s) = Done (true, s2)
     /\ channels (base_app s2) !! 7 = Some key4.
Proof.
  intros s.
  assert (Hr : run env0 scenario_login (init_sys 1 2) = Done (tt, s))
    by (vm_compute; reflexivity).
  assert (H : login_handle_element env0 7 (el_login_request_of 8 key4) s
              = Done (true, login_after env0 7 (el_login_request_of 8 key4) s))
    by (vm_compute; reflexivity).
  split; [exact H|].
  destruct (login_success_then_auth env0 s 7 8 key4 key4 true _ 9 0 0
              (login_clients_keyed_inv env0 scenario_login 1 2 s Hr)
              ltac:(vm_compute; reflexivity) ltac:(reflexivity)
              ltac:(vm_compute; reflexivity) H) as [k [_ [s2 [H1 [H2 _]]]]].
  exists k, s2. auto.
Defined.

(** *** X7-X9: what each service leaves alone *)

(** X7: a Login step never touches the Base app's BaseClients, counter, channels, outbox
    or address, and never removes or overwrites a registry entry. *)
Theorem login_step_base_frame env addr e s b s' :
  login_handle_element env addr e s = Done (b, s') ->
  base_addr (base_app s') = base_addr (base_app s)
  /\ logged_clients (base_app s') = logged_clients (base_app s)
  /\ logged_counter (base_app s') = logged_counter (base_app s)
  /\ channels (base_app s') = channels (base_app s)
  /\ base_sent (base_app s') = base_sent (base_app s)
  /\ (forall k p, pending_clients (base_app s) !! k = Some p ->
        pending_clients (base_app s') !! k = Some p).
Proof.
  intros H. apply login_step_shape in H as [_ [_ [[Hb _]|[key [v [Hn [Hb _]]]]]]];
    rewrite Hb; simpl; repeat split; auto.
  intros k p Hp. rewrite lookup_insert_ne; [exact Hp|]. intros ->. congruence.
Qed.

Lemma login_step_base_frame_witness :
  let s := final_state scenario_login in
  login_handle_element env0 7 (el_login_request_of 8 key4) s
  = Done (true, login_after env0 7 (el_login_request_of 8 key4) s)
  /\ pending_clients (base_app (login_after env0 7 (el_login_request_of 8 key4) s)) !! 1007
     = Some (mkPendingBaseClient 7 key4).
Proof.
  intros s.
  assert (H : login_handle_element env0 7 (el_login_request_of 8 key4) s
              = Done (true, login_after env0 7 (el_login_request_of 8 key4) s))
    by (vm_compute; reflexivity).
  split; [exact H|].
  destruct (login_step_base_frame env0 7 _ s true _ H) as [_ [_ [_ [_ [_ Hp]]]]].
  apply Hp. vm_compute. reflexivity.
Defined.

(** X8: a Base step never touches the Login app and never adds a registry entry. *)
Theorem base_step_login_frame env addr e s b s' :
  base_handle_element env addr e s = Done (b, s') ->
  login_app s' = login_app s
  /\ (forall k p, pending_clients (base_app s') !! k = Some p ->
        pending_clients (base_app s) !! k = Some p).
Proof.
  intros H. apply base_step_shape in H as [Hl [Hp _]]. split; [exact Hl|].
  intros k p E. destruct Hp as [Hp|[k' Hp]]; rewrite Hp in E; [exact E|].
  apply lookup_delete_Some in E. apply E.
Qed.

Lemma base_step_login_frame_witness :
  let s := final_state scenario_login in
  base_handle_element env0 7 (el_auth 1007 (Some 9)) s
  = Done (true, base_after env0 7 (el_auth 1007 (Some 9)) s)
  /\ login_app (base_after env0 7 (el_auth 1007 (Some 9)) s) = login_app s.
Proof.
  intros s.
  assert (H : base_handle_element env0 7 (el_auth 1007 (Some 9)) s
              = Done (true, base_after env0 7 (el_auth 1007 (Some 9)) s))
    by (vm_compute; reflexivity).
  split; [exact H|]. apply (base_step_login_frame env0 7 _ s true _ H).
Defined.

(** X9: a ClientSessionKey element never panics and always continues the batch; it
    changes neither app's state except by appending to the Base outbox, and it appends
    something only when the sender has a BaseClient whose session key equals the one
    received. *)
Theorem session_key_frame env addr rid sk s :
  exists s',
    base_handle_element env addr
      (Simple ClientSessionKey_ID (mkReader rid (BClientSessionKey sk))) s = Done (true, s')
    /\ login_app s' = login_app s
    /\ base_addr (base_app s') = base_addr (base_app s)
    /\ pending_clients (base_app s') = pending_clients (base_app s)
    /\ logged_clients (base_app s') = logged_clients (base_app s)
    /\ logged_counter (base_app s') = logged_counter (base_app s)
    /\ channels (base_app s') = channels (base_app s)
    /\ exists out,
       base_sent (base_app s') = base_sent (base_app s) ++ out
       /\ (out <> [] -> exists c, logged_clients (base_app s) !! addr = Some c
                                  /\ session_key c = sk).
Proof.
  destruct s as [la [ba pend logged cnt chans sent] cp rp].
  unfold base_handle_element. unfold_m.
  destruct (logged !! addr) as [c|] eqn:Hc.
  - destruct (decide (sk = session_key c)) as [Heq|Hne]; [destruct (sent_freq c)|];
      simpl; unfold timestamp_bundle, current_time_tick, current_time; unfold_m;
      eexists; (split; [reflexivity|]); simpl; repeat (split; [reflexivity|]).
    + exists []. rewrite app_nil_r. split; [reflexivity|]. intros Hn; contradiction.
    + eexists. split; [rewrite <- app_assoc; reflexivity|]. intros _. exists c. auto.
    + exists []. rewrite app_nil_r. split; [reflexivity|]. intros Hn; contradiction.
  - eexists; (split; [reflexivity|]); simpl; repeat (split; [reflexivity|]).
    exists []. rewrite app_nil_r. split; [reflexivity|]. intros Hn; contradiction.
Qed.

(** *** X10-X14: invariants of the running servers *)

(** X10: in every reachable state, no tracked BaseClient has [sent_freq] set. *)
Theorem sent_freq_never_set env lb bb evs s :
  run env evs (init_sys lb bb) = Done (tt, s) ->
  forall a c, logged_clients (base_app s) !! a = Some c -> sent_freq c = false.
Proof.
  intros H.
  eapply (run_inv (fun s => forall a c, logged_clients (base_app s) !! a = Some c ->
                              sent_freq c = false)); [| | |exact H].
  - intros a e s1 b s2 Hi Hs.
    apply login_step_shape in Hs as [_ [_ [[Hb _]|[key [v [_ [Hb _]]]]]]];
      rewrite Hb; exact Hi.
  - intros a e s1 b s2 Hi Hs.
    apply base_step_shape in Hs as [_ [_ [[H1 _]|[_ [_ [H1 _]]]]]];
      intros a' c Ha; rewrite H1 in Ha; [eapply Hi; exact Ha|].
    destruct (decide (a = a')) as [->|Hne].
    + rewrite lookup_insert_eq in Ha. inversion Ha; subst. reflexivity.
    + rewrite lookup_insert_ne in Ha by exact Hne. eapply Hi. exact Ha.
  - intros a c Ha. simpl in Ha. rewrite lookup_empty in Ha. discriminate Ha.
Qed.

Lemma sent_freq_never_set_witness :
  run env0 scenario_relogin (init_sys 1 2) = Done (tt, final_state scenario_relogin)
  /\ logged_clients (base_app (final_state scenario_relogin)) !! 7 = Some (BaseClient_new 1)
  /\ sent_freq (BaseClient_new 1) = false.
Proof.
  assert (H : run env0 scenario_relogin (init_sys 1 2) = Done (tt, final_state scenario_relogin))
    by (vm_compute; reflexivity).
  assert (Hl : logged_clients (base_app (final_state scenario_relogin)) !! 7
               = Some (BaseClient_new 1)) by (vm_compute; reflexivity).
  split; [exact H|]. split; [exact Hl|].
  exact (sent_freq_never_set env0 1 2 scenario_relogin _ H 7 _ Hl).
Defined.

(** X11: in every reachable state, every address with a BaseClient has an encrypted
    channel. *)
Theorem logged_clients_have_channel env lb bb evs s :
  run env evs (init_sys lb bb) = Done (tt, s) ->
  forall a c, logged_clients (base_app s) !! a = Some c ->
    is_Some (channels (base_app s) !! a).
Proof.
  intros H.
  eapply (run_inv (fun s => forall a c, logged_clients (base_app s) !! a = Some c ->
                              is_Some (channels (base_app s) !! a))); [| | |exact H].
  - intros a e s1 b s2 Hi Hs.
    apply login_step_shape in Hs as [_ [_ [[Hb _]|[key [v [_ [Hb _]]]]]]];
      rewrite Hb; exact Hi.
  - intros a e s1 b s2 Hi Hs.
    apply base_step_channels in Hs as [[H1 H2]|[bf [H2 H1]]];
      intros a' c Ha; rewrite H1 in Ha; rewrite H2; [eapply Hi; exact Ha|].
    destruct (decide (a = a')) as [->|Hne].
    + rewrite lookup_insert_eq. eexists. reflexivity.
    + rewrite lookup_insert_ne in Ha by exact Hne. rewrite lookup_insert_ne by exact Hne.
      eapply Hi. exact Ha.
  - intros a c Ha. simpl in Ha. rewrite lookup_empty in Ha. discriminate Ha.
Qed.

Lemma logged_clients_have_channel_witness :
  run env0 scenario_a (init_sys 1 2) = Done (tt, final_state scenario_a)
  /\ is_Some (channels (base_app (final_state scenario_a)) !! 7).
Proof.
  assert (H : run env0 scenario_a (init_sys 1 2) = Done (tt, final_state scenario_a))
    by (vm_compute; reflexivity).
  split; [exact H|].
  apply (logged_clients_have_channel env0 1 2 scenario_a _ H 7 (BaseClient_new 1)).
  vm_compute. reflexivity.
Defined.

(** X12: in every reachable state, two distinct addresses never hold BaseClients with the
    same session key. *)
Theorem logged_keys_distinct_run env lb bb evs s :
  run env evs (init_sys lb bb) = Done (tt, s) -> logged_keys_distinct s.
Proof.
  intros H.
  cut (base_inv s /\ logged_keys_distinct s); [tauto|].
  eapply (run_inv (fun s => base_inv s /\ logged_keys_distinct s)); [| | |exact H].
  - intros a e s1 b s2 [Hi Hd] Hs. split; [eapply base_inv_login_step; eassumption|].
    apply login_step_shape in Hs as [_ [_ [[Hb _]|[key [v [_ [Hb _]]]]]]];
      unfold logged_keys_distinct; rewrite Hb; exact Hd.
  - intros a e s1 b s2 [Hi Hd] Hs. split; [eapply base_inv_base_step; eassumption|].
    destruct Hi as [_ [_ Hle]].
    apply base_step_shape in Hs as [_ [_ [[H1 _]|[_ [_ [H1 _]]]]]];
      unfold logged_keys_distinct; rewrite H1; [exact Hd|].
    intros a1 a2 c1 c2 Hne E1 E2.
    destruct (decide (a = a1)) as [<-|H1n]; destruct (decide (a = a2)) as [<-|H2n].
    + contradiction.
    + rewrite lookup_insert_eq in E1. rewrite lookup_insert_ne in E2 by exact H2n.
      inversion E1; subst. apply Hle in E2. simpl. lia.
    + rewrite lookup_insert_eq in E2. rewrite lookup_insert_ne in E1 by exact H1n.
      inversion E2; subst. apply Hle in E1. simpl. lia.
    + rewrite lookup_insert_ne in E1 by exact H1n. rewrite lookup_insert_ne in E2 by exact H2n.
      exact (Hd a1 a2 c1 c2 Hne E1 E2).
  - split; [apply base_inv_init|]. intros a1 a2 c1 c2 _ E1. simpl in E1.
    rewrite lookup_empty in E1. discriminate E1.
Qed.

Lemma logged_keys_distinct_run_witness :
  run env0 scenario_two (init_sys 1 2) = Done (tt, final_state scenario_two)
  /\ logged_clients (base_app (final_state scenario_two)) !! 7 = Some (BaseClient_new 1)
  /\ logged_clients (base_app (final_state scenario_two)) !! 8 = Some (BaseClient_new 2)
  /\ logged_keys_distinct (final_state scenario_two).
Proof.
  assert (H : run env0 scenario_two (init_sys 1 2) = Done (tt, final_state scenario_two))
    by (vm_compute; reflexivity).
  split; [exact H|]. split; [vm_compute; reflexivity|]. split; [vm_compute; reflexivity|].
  exact (logged_keys_distinct_run env0 1 2 scenario_two _ H).
Defined.

(** X13: in every reachable state, every registry entry is for an address whose
    LoginClient has completed the challenge. *)
Theorem pending_for_verified env lb bb evs s :
  run env evs (init_sys lb bb) = Done (tt, s) ->
  forall k p, pending_clients (base_app s) !! k = Some p ->
    challenge_flag (pb_addr p) s = true.
Proof.
  intros H.
  cut (login_clients_keyed s /\ forall k p, pending_clients (base_app s) !! k = Some p ->
         challenge_flag (pb_addr p) s = true); [tauto|].
  eapply (run_inv (fun s => login_clients_keyed s /\
             forall k p, pending_clients (base_app s) !! k = Some p ->
               challenge_flag (pb_addr p) s = true)); [| | |exact H].
  - intros a e s1 b s2 [Hk Hp] Hs. split; [eapply keyed_login_step; eassumption|].
    destruct (login_step_shape env a e s1 b s2 Hs) as [_ [Hfl _]].
    assert (Hmono : forall x, challenge_flag x s1 = true -> challenge_flag x s2 = true)
      by (intros x Hx; rewrite Hfl, Hx; reflexivity).
    destruct (login_step_pending env a e s1 b s2 Hs) as [Hb|[key [bf [Hb Hf]]]];
      intros k p E; rewrite Hb in E; simpl in E.
    + apply Hmono. eapply Hp. exact E.
    + destruct (decide (key = k)) as [<-|Hne].
      * rewrite lookup_insert_eq in E. inversion E; subst. simpl.
        rewrite (keyed_lc_addr s1 a Hk). apply Hmono. exact Hf.
      * rewrite lookup_insert_ne in E by exact Hne. apply Hmono. eapply Hp. exact E.
  - intros a e s1 b s2 [Hk Hp] Hs. split; [eapply keyed_base_step; eassumption|].
    apply base_step_shape in Hs as [Hl [Hpd _]].
    intros k p E. unfold challenge_flag. rewrite Hl. fold (challenge_flag (pb_addr p) s1).
    destruct Hpd as [Hpd|[k' Hpd]]; rewrite Hpd in E; [eapply Hp; exact E|].
    apply lookup_delete_Some in E. eapply Hp. apply E.
  - split; [apply keyed_init|]. intros k p E. simpl in E.
    rewrite lookup_empty in E. discriminate E.
Qed.

Lemma pending_for_verified_witness :
  run env0 scenario_login (init_sys 1 2) = Done (tt, final_state scenario_login)
  /\ pending_clients (base_app (final_state scenario_login)) !! 1007
     = Some (mkPendingBaseClient 7 key4)
  /\ challenge_flag 7 (final_state scenario_login) = true.
Proof.
  assert (H : run env0 scenario_login (init_sys 1 2) = Done (tt, final_state scenario_login))
    by (vm_compute; reflexivity).
  assert (Hp : pending_clients (base_app (final_state scenario_login)) !! 1007
               = Some (mkPendingBaseClient 7 key4)) by (vm_compute; reflexivity).
  split; [exact H|]. split; [exact Hp|].
  exact (pending_for_verified env0 1 2 scenario_login _ H 1007 _ Hp).
Defined.

(** X14: a LoginClient is never removed, and the address it records never changes. *)
Theorem login_clients_persist env evs s0 s1 a c :
  run env evs s0 = Done (tt, s1) ->
  clients (login_app s0) !! a = Some c ->
  exists c', clients (login_app s1) !! a = Some c' /\ lc_addr c' = lc_addr c.
Proof.
  intros H Hc.
  eapply (run_inv (fun s => exists c', clients (login_app s) !! a = Some c'
                                        /\ lc_addr c' = lc_addr c));
    [| | exists c; split; [exact Hc|reflexivity] | exact H].
  - intros a' e t1 b t2 [c' [E L]] Hs.
    destruct (login_step_clients env a' e t1 b t2 Hs) as [Ho [c'' [E' L']]].
    destruct (decide (a = a')) as [->|Hne].
    + exists c''. split; [exact E'|]. rewrite L', E. exact L.
    + exists c'. rewrite Ho by exact Hne. auto.
  - intros a' e t1 b t2 Hi Hs. apply base_step_shape in Hs as [Hl _]. rewrite Hl. exact Hi.
Qed.

Lemma login_clients_persist_witness :
  run env0 events_after_login (final_state scenario_login) = Done (tt, final_state scenario_persist)
  /\ exists c', clients (login_app (final_state scenario_persist)) !! 7 = Some c' /\ lc_addr c' = 7.
Proof.
  assert (H : run env0 events_after_login (final_state scenario_login) = Done (tt, final_state scenario_persist))
    by (vm_compute; reflexivity).
  split; [exact H|].
  exact (login_clients_persist env0 _ _ _ 7 (mkLoginClient 7 (Some key4) true) H
           ltac:(vm_compute; reflexivity)).
Defined.

(** *** X16: LoginRequest with an unusable key *)

(** X16: a LoginRequest whose Blowfish key is shorter than 4 or longer than 56 bytes
    makes the Login app panic. *)
Theorem login_request_bad_key env addr rid user pass key s :
  (length key < 4 \/ 56 < length key)%nat ->
  login_handle_element env addr
    (Simple LoginRequest_ID (mkReader rid (BLoginRequest user pass key))) s
  = Panic unwrap_none_msg.
Proof.
  intros Hl.
  assert (Hb : blowfish_new_from_slice key = None).
  { unfold blowfish_new_from_slice. case_decide as Hd; [lia|reflexivity]. }
  unfold login_handle_element. unfold bind at 1. rewrite login_client_entry_eq.
  unfold_m. rewrite Hb. reflexivity.
Qed.

Lemma login_request_bad_key_witness :
  login_handle_element env0 7
    (Simple LoginRequest_ID (mkReader (Some 1) (BLoginRequest "user" "pass" [1; 2; 3])))
    (init_sys 1 2)
  = Panic unwrap_none_msg.
Proof. apply login_request_bad_key. simpl. lia. Defined.
